(** * The migration runner of masoniteorm ([migrations/Migration.py])

    A shallow embedding of the class [Migration] and of the collaborators it
    drives (directory listing, the [migrations] ledger table, [pydoc.locate],
    the console command), followed by the properties of the runner. *)

From Stdlib Require Import ZArith Ascii String.
From stdpp Require Import base tactics option list sorting gmap strings.

Local Open Scope string_scope.
Local Open Scope Z_scope.
Local Open Scope list_scope.

(** ** Python string operations used by the runner *)

Module PyStr.

(** [s.split(sep)] for a one-character separator: always at least one
    field, empty fields are kept. *)
Fixpoint split (sep : ascii) (s : string) : list string :=
  match s with
  | EmptyString => [EmptyString]
  | String c r =>
      if Ascii.eqb c sep then EmptyString :: split sep r
      else match split sep r with
           | [] => [String c EmptyString]
           | tok :: toks => String c tok :: toks
           end
  end.

(** [sep.join(fields)]. *)
Definition join (sep : string) (fields : list string) : string :=
  String.concat sep fields.

(** [s.replace(old, new)] for a non-empty [old]: leftmost, non-overlapping
    occurrences.  [skip] counts the characters of a matched occurrence that
    are still to be dropped. *)
Fixpoint replace_from (old new : string) (skip : nat) (s : string) : string :=
  match s with
  | EmptyString => EmptyString
  | String c r =>
      match skip with
      | S k => replace_from old new k r
      | O =>
          if String.prefix old s
          then (new ++ replace_from old new (Nat.pred (String.length old)) r)%string
          else String c (replace_from old new O r)
      end
  end.

Definition replace (old new s : string) : string := replace_from old new O s.

(** The strings of the model are the UTF-8 bytes of Python's [str]: a byte
    below 128 is an ASCII character, a byte from 128 to 191 continues the
    character that the bytes before it started. *)
Definition is_ascii (c : ascii) : bool := (N_of_ascii c <? 128)%N.

Definition is_continuation (c : ascii) : bool :=
  let n := N_of_ascii c in ((128 <=? n) && (n <? 192))%N.

(** The continuation bytes at the head of [s]. *)
Fixpoint continuation (s : string) : string :=
  match s with
  | EmptyString => EmptyString
  | String c r => if is_continuation c then String c (continuation r) else EmptyString
  end.

(** [c.upper()] for an ASCII character [c]. *)
Definition upper (c : ascii) : ascii :=
  let n := N_of_ascii c in
  if ((97 <=? n) && (n <=? 122))%N then ascii_of_N (n - 32) else c.

Definition newline : ascii := ascii_of_N 10.

Section Camelize.

(** [ch.upper()] for a character [ch] outside ASCII, given and returned as
    UTF-8 bytes: the case mapping of the Unicode tables of the interpreter,
    which may yield more than one character. *)
Variable upper_wide : string → string.

(** [inflection.camelize(s)] with its default [uppercase_first_letter]:
    [re.sub(r"(?:^|_)(.)", lambda m: m.group(1).upper(), s)].  After the
    first character, an underscore followed by a character other than a
    newline is replaced by that character in upper case.  [skip] counts the
    continuation bytes of a replaced character that are still to be
    dropped. *)
Fixpoint camelize_rest (skip : nat) (s : string) : string :=
  match s with
  | EmptyString => EmptyString
  | String c r =>
      match skip with
      | S k => camelize_rest k r
      | O =>
          if Ascii.eqb c "_" then
            match r with
            | EmptyString => s
            | String d r' =>
                if Ascii.eqb d newline then String c (camelize_rest O r)
                else if is_ascii d then String (upper d) (camelize_rest O r')
                else (upper_wide (String d (continuation r')) ++
                      camelize_rest (String.length (continuation r')) r')%string
            end
          else String c (camelize_rest O r)
      end
  end.

Definition camelize (s : string) : string :=
  match s with
  | EmptyString => EmptyString
  | String c r =>
      if Ascii.eqb c newline then camelize_rest O s
      else if is_ascii c then String (upper c) (camelize_rest O r)
      else (upper_wide (String c (continuation r)) ++
            camelize_rest (String.length (continuation r)) r)%string
  end.

End Camelize.

(** [os.path.join(a, b)] on POSIX paths. *)
Definition ends_with_slash (a : string) : bool :=
  match String.get (Nat.pred (String.length a)) a with
  | Some c => Ascii.eqb c "/"
  | None => false
  end.

Definition path_join (a b : string) : string :=
  if String.prefix "/" b then b
  else if (String.eqb a "" || ends_with_slash a)%bool then (a ++ b)%string
  else (a ++ "/" ++ b)%string.

End PyStr.

(** ** The ledger: table [migrations] behind [MigrationModel] *)

(** One row of the table created by [create_table_if_not_exists]:
    [increments("migration_id")], [string("migration")], [integer("batch")]. *)
Record MigrationRecord := {
  migration_id : Z;
  migration : string;
  batch : Z
}.

(** The table: its rows in insertion order and the auto-increment counter of
    [migration_id]. *)
Record table := {
  rows : list MigrationRecord;
  next_id : Z
}.

Module Ledger.

(** Modelled from the spec: [Collection.pluck("migration")] of the model
    layer, which is not part of the sources at hand; the names of the
    records, in the order of the collection. *)
Definition pluck_migration (c : list MigrationRecord) : list string :=
  migration <$> c.

(** Modelled from the spec: [Collection.max("batch")] of the model layer
    ("maximum batch value across all records, or 0 if empty"). *)
Definition max_batch (c : list MigrationRecord) : Z :=
  match batch <$> c with
  | [] => 0
  | b :: bs => foldl Z.max b bs
  end.

(** Modelled from the spec: [MigrationModel.all()], the records in natural
    (creation) order. *)
Definition all (t : table) : list MigrationRecord := rows t.

(** Modelled from the spec: [where("batch", b)] of the query builder. *)
Definition where_batch (b : Z) (c : list MigrationRecord) : list MigrationRecord :=
  filter (λ r, batch r = b) c.

(** Descending order on the surrogate key. *)
Definition id_ge (a b : MigrationRecord) : Prop := (migration_id b ≤ migration_id a)%Z.

Global Instance id_ge_dec a b : Decision (id_ge a b).
Proof. unfold id_ge. apply _. Defined.

(** Modelled from the spec: [order_by("migration_id", "desc")] of the query
    builder ("descending by surrogate key"). *)
Definition order_by_migration_id_desc (c : list MigrationRecord) : list MigrationRecord :=
  merge_sort id_ge c.

(** Modelled from the spec: [MigrationModel.create({"batch": b, "migration": m})],
    one row inserted under the next value of the auto-increment key.  The
    table declares no unique column, so the insertion itself never fails. *)
Definition create (m : string) (b : Z) (t : table) : table :=
  {| rows := rows t ++ [ {| migration_id := next_id t; migration := m; batch := b |} ];
     next_id := next_id t + 1 |}.

(** Modelled from the spec: [where("migration", m).delete()], every row of
    that name is deleted; a name that is absent deletes nothing. *)
Definition delete_where_migration (m : string) (t : table) : table :=
  {| rows := filter (λ r, migration r ≠ m) (rows t); next_id := next_id t |}.

(** Modelled from the spec: [where_in("migration", ms).delete()]. *)
Definition delete_where_migration_in (ms : list string) (t : table) : table :=
  {| rows := filter (λ r, migration r ∉ ms) (rows t); next_id := next_id t |}.

(** Modelled from the spec: [where("batch", b).delete()]. *)
Definition delete_where_batch (b : Z) (t : table) : table :=
  {| rows := filter (λ r, batch r ≠ b) (rows t); next_id := next_id t |}.

End Ledger.

(** ** Exceptions and outcomes *)

(** The exceptions a call can end with.  [pydoc.locate] returns [None] for
    a path under which it finds nothing, so a missing unit surfaces as the
    [TypeError] of calling [None]; it raises [ErrorDuringImport] when a
    module of the path fails while it is imported.  A schema without a
    blueprint surfaces as the [AttributeError] of [None.to_sql()].
    [ImportError] and [NameError] are what [__init__] ends with. *)
Inductive exn :=
| TypeError
| AttributeError
| FileNotFoundError
| ErrorDuringImport
| ImportError
| NameError
| UnitError (name : string).

(** The class name Python reports for the exception. *)
Definition exn_name (e : exn) : string :=
  match e with
  | TypeError => "TypeError"
  | AttributeError => "AttributeError"
  | FileNotFoundError => "FileNotFoundError"
  | ErrorDuringImport => "ErrorDuringImport"
  | ImportError => "ImportError"
  | NameError => "NameError"
  | UnitError name => name
  end.

Inductive outcome (A : Type) :=
| Ok (a : A)
| Raise (e : exn).
Arguments Ok {A} a.
Arguments Raise {A} e.

(** What the schema builder of a unit holds after [up()] or [down()]: the SQL
    text of its blueprint ([schema._blueprint.to_sql()]) when there is a
    blueprint, and the raw statement [schema._sql] (empty when unset). *)
Record schema_sql := {
  _blueprint : option string;
  _sql : string
}.

(** Status lines sent to the console command.  The elapsed time that the
    timed lines carry is wall time and is left out. *)
Inductive message :=
| Migrating (m : string)
| Migrated (m : string)
| RollingBack (m : string)
| RolledBack (m : string)
| EmptyLine.

(** The calls the runner makes on its collaborators, in program order. *)
Inductive event :=
| EvLocate (path : string)
| EvAppendRan (m : string)
| EvLine (msg : message)
| EvInstantiate (m : string) (conn : option string)
| EvSchemaDry (m : string)
| EvUp (m : string)
| EvDown (m : string)
| EvTableRender (header : list string) (body : list (list string))
| EvPrint (text : string)
| EvCreate (m : string) (b : Z)
| EvDelete (m : string)
| EvDeleteIn (ms : list string).

(** A directory entry and whether [os.path.isfile] holds of it. *)
Record dirent := {
  d_name : string;
  d_isfile : bool
}.

(** The attributes of a runner that the methods read and none of them
    reassigns; [__init__] assigns them in its lines 24 to 27.
    [command_class] records whether a console command was given (the runner
    only tests its truth value and calls it); [schema_dry] is the [dry]
    flag that line 36 hands to the runner's own [Schema]. *)
Record Migration := {
  connection : string;
  migration_directory : string;
  command_class : bool;
  schema_dry : bool
}.

Definition default_connection : string := "default".
Definition default_migration_directory : string := "databases/migrations".

(** [Migration.__init__].  After the attributes are assigned, line 29
    imports [DB] from [config.database], which raises [ImportError] (as
    [ModuleNotFoundError] when the module itself is missing) when the
    application does not provide it ([config_database] tells whether it
    does); line 31 then reads the name [db], which nothing binds: neither
    the function nor the module assigns it and it is no builtin.  No call
    returns a runner. *)
Definition Migration_init (config_database : bool) (conn : string) (dry : bool)
    (cmd : bool) (directory : string) : outcome Migration :=
  let self := {| connection := conn;
                 migration_directory := PyStr.replace "/" "." directory;
                 command_class := cmd;
                 schema_dry := dry |} in
  if config_database then Raise NameError else Raise ImportError.

(** ** Migration units, the environment and the run state *)

(** A migration unit as the runner consumes it.  [up] and [down] receive the
    [connection] argument of the constructor ([None] when the runner passes
    none and the unit falls back on its own default), whether the runner has
    called [schema.dry()] on the instance, and the database; they return what
    the schema builder holds afterwards, or raise, together with the database
    they leave behind. *)
Record MigrationUnit (DB : Type) := {
  up : option string → bool → DB → outcome schema_sql * DB;
  down : option string → bool → DB → outcome schema_sql * DB
}.
Arguments up {DB} _ _ _ _.
Arguments down {DB} _ _ _ _.

(** What [pydoc.locate] returns: a unit class, another object (a module,
    for instance, which cannot be called), or [None]. *)
Inductive located (DB : Type) :=
| LocUnit (u : MigrationUnit DB)
| LocOther
| LocNone.
Arguments LocUnit {DB} u.
Arguments LocOther {DB}.
Arguments LocNone {DB}.

(** What a run reads and never writes: the working directory, the directory
    listings of the file system, what [pydoc.locate] does with a dotted path
    (the unit classes it finds, the paths under which it finds another
    object, the paths on which it raises because a module fails while it is
    imported), and the upper-case mapping of the characters outside ASCII. *)
Record env (DB : Type) := {
  cwd : string;
  dirs : gmap string (list dirent);
  modules : gmap string (MigrationUnit DB);
  other_objects : gset string;
  failing_imports : gset string;
  upper_wide : string → string
}.
Arguments cwd {DB} _.
Arguments dirs {DB} _.
Arguments modules {DB} _.
Arguments other_objects {DB} _.
Arguments failing_imports {DB} _.
Arguments upper_wide {DB} _.

(** The result of [pydoc.locate(path)] in an environment.  The three
    components are meant to be disjoint; a path bound in [modules] is a
    class. *)
Definition locate_result {DB} (e : env DB) (path : string) : outcome (located DB) :=
  match modules e !! path with
  | Some u => Ok (LocUnit u)
  | None =>
      if decide (path ∈ failing_imports e) then Raise ErrorDuringImport
      else if decide (path ∈ other_objects e) then Ok LocOther
      else Ok LocNone
  end.

(** What a run changes: the database the units act on, the ledger table, the
    runner attribute [last_migrations_ran], and the log of collaborator
    calls. *)
Record state (DB : Type) := {
  db : DB;
  ledger : table;
  last_migrations_ran : list string;
  trace : list event
}.
Arguments db {DB} _.
Arguments ledger {DB} _.
Arguments last_migrations_ran {DB} _.
Arguments trace {DB} _.

(** The state of a fresh runner: [last_migrations_ran] as line 26 of
    [__init__] sets it, nothing called yet. *)
Definition init_state {DB : Type} (d : DB) (t : table) : state DB :=
  {| db := d; ledger := t; last_migrations_ran := []; trace := [] |}.

(** An instance of a unit: the class, the constructor argument and whether
    its schema was switched to dry mode. *)
Record instance (DB : Type) := {
  i_file : string;
  i_unit : MigrationUnit DB;
  i_connection : option string;
  i_dry : bool
}.
Arguments i_file {DB} _.
Arguments i_unit {DB} _.
Arguments i_connection {DB} _.
Arguments i_dry {DB} _.

(** Computations that read and write the state and may raise; the state
    reached before a raise is kept. *)
Definition M (DB A : Type) : Type := state DB → outcome A * state DB.

Global Instance M_ret {DB} : MRet (M DB) := λ A a st, (Ok a, st).
Global Instance M_bind {DB} : MBind (M DB) := λ A B f c st,
  match c st with
  | (Ok a, st') => f a st'
  | (Raise x, st') => (Raise x, st')
  end.

Section Runner.
Context {DB : Type}.

Definition raise {A} (x : exn) : M DB A := λ st, (Raise x, st).

Definition emit (ev : event) : M DB () := λ st,
  (Ok (), {| db := db st; ledger := ledger st;
             last_migrations_ran := last_migrations_ran st;
             trace := trace st ++ [ev] |}).

Definition modify_ledger (f : table → table) : M DB () := λ st,
  (Ok (), {| db := db st; ledger := f (ledger st);
             last_migrations_ran := last_migrations_ran st;
             trace := trace st |}).

Definition read_ledger : M DB table := λ st, (Ok (ledger st), st).

(** [self.last_migrations_ran.append(m)]. *)
Definition append_last_migrations_ran (m : string) : M DB () := λ st,
  (Ok (), {| db := db st; ledger := ledger st;
             last_migrations_ran := last_migrations_ran st ++ [m];
             trace := trace st ++ [EvAppendRan m] |}).

(** A [for] loop over a list computed beforehand. *)
Fixpoint for_each {A} (l : list A) (body : A → M DB ()) : M DB () :=
  match l with
  | [] => mret ()
  | x :: l' => body x ;; for_each l' body
  end.

(** Running [up()] or [down()] of an instance against the database. *)
Definition run_unit (f : option string → bool → DB → outcome schema_sql * DB)
    (i : instance DB) : M DB schema_sql := λ st,
  let '(r, d) := f (i_connection i) (i_dry i) (db st) in
  (r, {| db := d; ledger := ledger st;
         last_migrations_ran := last_migrations_ran st;
         trace := trace st |}).

Definition call_up (i : instance DB) : M DB schema_sql :=
  emit (EvUp (i_file i)) ;; run_unit (up (i_unit i)) i.

Definition call_down (i : instance DB) : M DB schema_sql :=
  emit (EvDown (i_file i)) ;; run_unit (down (i_unit i)) i.

(** [cls(connection=...)] or [cls()]; calling [None], or an object that
    cannot be called, is a [TypeError]. *)
Definition instantiate (m : string) (cls : located DB)
    (conn : option string) : M DB (instance DB) :=
  match cls with
  | LocNone | LocOther => raise TypeError
  | LocUnit u =>
      emit (EvInstantiate m conn) ;;
      mret {| i_file := m; i_unit := u; i_connection := conn; i_dry := false |}
  end.

(** [instance.schema.dry()]. *)
Definition schema_dry_on (i : instance DB) : M DB (instance DB) :=
  emit (EvSchemaDry (i_file i)) ;;
  mret {| i_file := i_file i; i_unit := i_unit i;
          i_connection := i_connection i; i_dry := true |}.

(** [schema._blueprint.to_sql()]; without a blueprint, [None.to_sql()]. *)
Definition blueprint_to_sql (s : schema_sql) : M DB string :=
  match _blueprint s with
  | None => raise AttributeError
  | Some text => mret text
  end.

Definition line (msg : message) : M DB () := emit (EvLine msg).

Variable e : env DB.
Variable self : Migration.

(** [os.listdir]. *)
Definition listdir (path : string) : M DB (list dirent) :=
  match dirs e !! path with
  | None => raise FileNotFoundError
  | Some entries => mret entries
  end.

(** [pydoc.locate]: the call is logged, then it returns or raises as the
    environment has it. *)
Definition pydoc_locate (path : string) : M DB (located DB) :=
  emit (EvLocate path) ;;
  match locate_result e path with
  | Ok r => mret r
  | Raise x => raise x
  end.

(** The entries kept by the comprehension
    [[f for f in listdir(p) if isfile(join(p, f)) and f != "__init__.py"]]. *)
Definition candidate_files (entries : list dirent) : list string :=
  d_name <$> filter (λ d, d_isfile d = true ∧ d_name d ≠ "__init__.py") entries.

(** [Migration.get_unran_migrations]. *)
Definition get_unran_migrations : M DB (list string) :=
  let directory_path := PyStr.path_join (cwd e) "databases/migrations" in
  entries ← listdir directory_path;
  let all_migrations := merge_sort String.le (candidate_files entries) in
  t ← read_ledger;
  let database_migrations := Ledger.all t in
  mret (filter (λ m, m ∉ Ledger.pluck_migration database_migrations) all_migrations).

(** [Migration.get_ran_migrations]. *)
Definition get_ran_migrations : M DB (list string) :=
  let directory_path := PyStr.path_join (cwd e) "databases/migrations" in
  entries ← listdir directory_path;
  let all_migrations := merge_sort String.le (candidate_files entries) in
  t ← read_ledger;
  let database_migrations := Ledger.all t in
  mret (filter (λ m, m ∈ Ledger.pluck_migration database_migrations) all_migrations).

(** [Migration.get_rollback_migrations]. *)
Definition get_rollback_migrations : M DB (list string) :=
  t ← read_ledger;
  mret (Ledger.pluck_migration
          (Ledger.order_by_migration_id_desc
             (Ledger.where_batch (Ledger.max_batch (Ledger.all t)) (rows t)))).

(** [Migration.get_all_migrations]. *)
Definition get_all_migrations (reverse : bool) : M DB (list string) :=
  t ← read_ledger;
  if reverse
  then mret (Ledger.pluck_migration (Ledger.order_by_migration_id_desc (rows t)))
  else mret (Ledger.pluck_migration (Ledger.all t)).

(** [Migration.get_last_batch_number]. *)
Definition get_last_batch_number : M DB Z :=
  t ← read_ledger; mret (Ledger.max_batch (rows t)).

(** [Migration.delete_migration]. *)
Definition delete_migration (file_path : string) : M DB () :=
  emit (EvDelete file_path) ;;
  modify_ledger (Ledger.delete_where_migration file_path).

(** [Migration.delete_migrations]. *)
Definition delete_migrations (migrations : list string) : M DB () :=
  emit (EvDeleteIn migrations) ;;
  modify_ledger (Ledger.delete_where_migration_in migrations).

(** [Migration.delete_last_batch]. *)
Definition delete_last_batch : M DB () :=
  b ← get_last_batch_number;
  modify_ledger (Ledger.delete_where_batch b).

(** [self.migration_model.create({"batch": batch, "migration": migration})]. *)
Definition model_create (b : Z) (m : string) : M DB () :=
  emit (EvCreate m b) ;; modify_ledger (Ledger.create m b).

(** The dotted path
    [f"{self.migration_directory}.{file_name}.{migration_name}"] that
    [locate] and [migrate] build from a file name. *)
Definition unit_path (file_name : string) : string :=
  let migration_name :=
    PyStr.camelize (upper_wide e)
      (PyStr.replace ".py" "" (PyStr.join "_" (drop 4 (PyStr.split "_" file_name)))) in
  let file_name := PyStr.replace ".py" "" file_name in
  (migration_directory self ++ "." ++ file_name ++ "." ++ migration_name)%string.

(** [Migration.locate]. *)
Definition locate (file_name : string) : M DB (located DB) :=
  pydoc_locate (unit_path file_name).

(** The test [if self.command_class:] guarding a status line. *)
Definition report (msg : message) : M DB () :=
  if command_class self then line msg else mret ().

(** One iteration of the loop of [Migration.migrate]. *)
Definition migrate_one (batch : Z) (output : bool) (migration : string) : M DB () :=
  migration_class ← pydoc_locate (unit_path migration);
  append_last_migrations_ran migration ;;
  report (Migrating migration) ;;
  migration_class ← instantiate migration migration_class (Some (connection self));
  migration_class ← (if output then schema_dry_on migration_class
                     else mret migration_class);
  schema ← call_up migration_class;
  let rest : M DB () :=
    report (Migrated migration) ;;
    model_create batch migration in
  if output then
    if command_class self then
      text ← blueprint_to_sql schema;
      emit (EvTableRender ["SQL"] [[text]])
      (* continue *)
    else
      text ← blueprint_to_sql schema;
      emit (EvPrint text) ;;
      rest
  else rest.

(** [Migration.migrate]. *)
Definition migrate (output : bool) : M DB () :=
  last ← get_last_batch_number;
  let batch := last + 1 in
  pending ← get_unran_migrations;
  for_each pending (migrate_one batch output).

(** The rows handed to [table.set_rows] by [rollback]: the blueprint text
    when there is a blueprint, else the raw statement when it is not empty,
    else none. *)
Definition rollback_rows (schema : schema_sql) : list (list string) :=
  match _blueprint schema with
  | Some text => [[text]]
  | None => if String.eqb (_sql schema) "" then [] else [[_sql schema]]
  end.

(** One iteration of the loop of [Migration.rollback]. *)
Definition rollback_one (output : bool) (migration : string) : M DB () :=
  report (RollingBack migration) ;;
  cls ← locate migration;
  migration_class ← instantiate migration cls (Some (connection self));
  migration_class ← (if output then schema_dry_on migration_class
                     else mret migration_class);
  schema ← call_down migration_class;
  let rest : M DB () :=
    delete_migration migration ;;
    report (RolledBack migration) in
  if output then
    if command_class self then
      emit (EvTableRender ["SQL"] (rollback_rows schema))
      (* continue *)
    else
      text ← blueprint_to_sql schema;
      emit (EvPrint text) ;;
      rest
  else rest.

(** [Migration.rollback]. *)
Definition rollback (output : bool) : M DB () :=
  names ← get_rollback_migrations;
  for_each names (rollback_one output).

(** One iteration of the loop of [Migration.rollback_all]; the unit is
    built by [self.locate(migration)()], without arguments. *)
Definition rollback_all_one (migration : string) : M DB () :=
  cls ← locate migration;
  migration_class ← instantiate migration cls None;
  call_down migration_class ;;
  delete_migration migration.

(** [Migration.rollback_all]; when the loop completes, [ran_migrations]
    holds every name it went through. *)
Definition rollback_all : M DB () :=
  names ← get_all_migrations false;
  for_each names rollback_all_one ;;
  delete_migrations names.

(** One iteration of the loop of [Migration.reset]. *)
Definition reset_one (migration : string) : M DB () :=
  report (RollingBack migration) ;;
  cls ← locate migration;
  migration_class ← instantiate migration cls (Some (connection self));
  call_down migration_class ;;
  delete_migration migration ;;
  report (RolledBack migration) ;;
  delete_migrations [migration].

(** [Migration.reset]. *)
Definition reset : M DB () :=
  names ← get_all_migrations true;
  for_each names reset_one ;;
  report EmptyLine.

(** [Migration.refresh]. *)
Definition refresh : M DB () :=
  reset ;;
  migrate false.
End Runner.

(** ** Values and call sequences of the methods, written out *)

(** The directory that [get_unran_migrations] and [get_ran_migrations] list. *)
Definition discovery_directory {DB} (e : env DB) : string :=
  PyStr.path_join (cwd e) "databases/migrations".

(** The list [get_unran_migrations] returns for a listing and a ledger. *)
Definition pending_of (entries : list dirent) (t : table) : list string :=
  filter (λ m, m ∉ Ledger.pluck_migration (Ledger.all t))
         (merge_sort String.le (candidate_files entries)).

(** The list [get_rollback_migrations] returns on a ledger. *)
Definition rollback_names (t : table) : list string :=
  Ledger.pluck_migration
    (Ledger.order_by_migration_id_desc
       (Ledger.where_batch (Ledger.max_batch (Ledger.all t)) (rows t))).

(** The list [get_all_migrations(reverse=True)] returns on a ledger. *)
Definition reverse_names (t : table) : list string :=
  Ledger.pluck_migration (Ledger.order_by_migration_id_desc (rows t)).

(** The rows that [migrate] inserts for the names [ms] under batch [b] when
    the auto-increment counter stands at [i]. *)
Fixpoint new_records (i : Z) (b : Z) (ms : list string) : list MigrationRecord :=
  match ms with
  | [] => []
  | m :: ms' =>
      {| migration_id := i; migration := m; batch := b |} :: new_records (i + 1) b ms'
  end.

(** The status line [msg] when a console command is configured. *)
Definition report_events (self : Migration) (msg : message) : list event :=
  if command_class self then [EvLine msg] else [].

(** The calls of one completed iteration of [migrate] on the file [m], where
    [schema] is what the unit's schema builder holds after [up()]. *)
Definition migrate_events {DB} (e : env DB) (self : Migration) (b : Z) (output : bool) (m : string)
    (schema : schema_sql) : list event :=
  let text := default "" (_blueprint schema) in
  let rest := report_events self (Migrated m) ++ [EvCreate m b] in
  [EvLocate (unit_path e self m); EvAppendRan m] ++
  report_events self (Migrating m) ++
  [EvInstantiate m (Some (connection self))] ++
  (if output then [EvSchemaDry m] else []) ++
  [EvUp m] ++
  (if output then
     if command_class self then [EvTableRender ["SQL"] [[text]]]
     else EvPrint text :: rest
   else rest).

(** The calls of one completed iteration of [rollback]. *)
Definition rollback_events {DB} (e : env DB) (self : Migration) (output : bool) (m : string)
    (schema : schema_sql) : list event :=
  let text := default "" (_blueprint schema) in
  let rest := [EvDelete m] ++ report_events self (RolledBack m) in
  report_events self (RollingBack m) ++
  [EvLocate (unit_path e self m); EvInstantiate m (Some (connection self))] ++
  (if output then [EvSchemaDry m] else []) ++
  [EvDown m] ++
  (if output then
     if command_class self then [EvTableRender ["SQL"] (rollback_rows schema)]
     else EvPrint text :: rest
   else rest).

(** The calls of one completed iteration of [reset]. *)
Definition reset_events {DB} (e : env DB) (self : Migration) (m : string) : list event :=
  report_events self (RollingBack m) ++
  [EvLocate (unit_path e self m); EvInstantiate m (Some (connection self));
   EvDown m; EvDelete m] ++
  report_events self (RolledBack m) ++
  [EvDeleteIn [m]].

(** The calls of one completed iteration of [rollback_all]. *)
Definition rollback_all_events {DB} (e : env DB) (self : Migration) (m : string) : list event :=
  [EvLocate (unit_path e self m); EvInstantiate m None; EvDown m; EvDelete m].

(** The database after the units of the files [names] have run the method
    [f] ([up] or [down]) one after the other, each built with the
    constructor argument [conn] and with its schema in dry mode or not;
    [None] when a file has no unit class or a call raises. *)
Fixpoint units_on {DB} (e : env DB) (self : Migration)
    (f : MigrationUnit DB → option string → bool → DB → outcome schema_sql * DB)
    (conn : option string) (dry : bool) (names : list string) (d : DB) : option DB :=
  match names with
  | [] => Some d
  | m :: names' =>
      match modules e !! unit_path e self m with
      | None => None
      | Some u =>
          match f u conn dry d with
          | (Ok _, d') => units_on e self f conn dry names' d'
          | (Raise _, _) => None
          end
      end
  end.

Definition ups_on {DB} (e : env DB) (self : Migration) :=
  units_on e self (@up DB).
Definition downs_on {DB} (e : env DB) (self : Migration) :=
  units_on e self (@down DB).

(** The public operations of a runner. *)
Inductive operation :=
| OpMigrate (output : bool)
| OpRollback (output : bool)
| OpRollbackAll
| OpReset
| OpRefresh.

Definition run_operation {DB} (e : env DB) (self : Migration) (op : operation) : M DB () :=
  match op with
  | OpMigrate output => migrate e self output
  | OpRollback output => rollback e self output
  | OpRollbackAll => rollback_all e self
  | OpReset => reset e self
  | OpRefresh => refresh e self
  end.

(** A session: operations called one after the other on the same runner,
    whatever each of them ends with (the caller catches what is raised). *)
Fixpoint run_session {DB} (e : env DB) (self : Migration) (ops : list operation)
    (st : state DB) : state DB :=
  match ops with
  | [] => st
  | op :: ops' => run_session e self ops' (run_operation e self op st).2
  end.

(** Every name occurs once in the ledger. *)
Definition unique_names (t : table) : Prop :=
  NoDup (Ledger.pluck_migration (rows t)).

(** [last_migrations_ran] only grows at its end. *)
Definition grows {DB} : relation (state DB) :=
  λ st st', last_migrations_ran st `prefix_of` last_migrations_ran st'.

(** In a sequence of calls, every [up()] comes after the append of its file
    to [last_migrations_ran]. *)
Definition append_before_up (evs : list event) : Prop :=
  ∀ pre post m, evs = pre ++ EvUp m :: post → EvAppendRan m ∈ pre.

(** ** A small project used to run the model *)

Module Demo.

(** The database as the list of statements executed so far. *)
Definition DB : Type := list string.

(** A unit whose [up] and [down] build one blueprint each; in dry mode the
    statement is compiled and not executed. *)
Definition sql_unit (up_sql down_sql : string) : MigrationUnit DB :=
  {| up := λ _ dry d,
       (Ok {| _blueprint := Some up_sql; _sql := "" |}, if dry then d else d ++ [up_sql]);
     down := λ _ dry d,
       (Ok {| _blueprint := Some down_sql; _sql := "" |}, if dry then d else d ++ [down_sql]) |}.

Definition users : string := "2018_01_09_043202_create_users_table.py".
Definition articles : string := "2018_01_09_043203_create_articles_table.py".
Definition tags : string := "2020_05_01_120000_create_tags_table.py".
Definition orphans : string := "2018_01_09_043204_create_orphans_table.py".

Definition file (name : string) : dirent := {| d_name := name; d_isfile := true |}.

(** A project with two migrations in [databases/migrations] and one in
    [db/migs]. *)
Definition project : env DB :=
  {| cwd := "/app";
     dirs := {[ "/app/databases/migrations" :=
                  [ file articles; file "__init__.py";
                    {| d_name := "__pycache__"; d_isfile := false |}; file users ];
                "/app/db/migs" := [ file tags ] ]};
     modules :=
       {[ "databases.migrations.2018_01_09_043202_create_users_table.CreateUsersTable" :=
            sql_unit "CREATE TABLE users" "DROP TABLE users";
          "databases.migrations.2018_01_09_043203_create_articles_table.CreateArticlesTable" :=
            sql_unit "CREATE TABLE articles" "DROP TABLE articles";
          "db.migs.2020_05_01_120000_create_tags_table.CreateTagsTable" :=
            sql_unit "CREATE TABLE tags" "DROP TABLE tags" ]};
     other_objects := ∅;
     failing_imports := ∅;
     upper_wide := λ ch, ch |}.

(** The same project with a third file under which no unit can be loaded. *)
Definition broken_project : env DB :=
  {| cwd := "/app";
     dirs := {[ "/app/databases/migrations" := [ file orphans; file users ] ]};
     modules :=
       {[ "databases.migrations.2018_01_09_043202_create_users_table.CreateUsersTable" :=
            sql_unit "CREATE TABLE users" "DROP TABLE users" ]};
     other_objects := ∅;
     failing_imports := ∅;
     upper_wide := λ ch, ch |}.

(** Runner objects as the methods receive them in [self]. *)
Definition quiet : Migration :=
  {| connection := "default"; migration_directory := "databases.migrations";
     command_class := false; schema_dry := false |}.
Definition console : Migration :=
  {| connection := "default"; migration_directory := "databases.migrations";
     command_class := true; schema_dry := false |}.
Definition on_sqlite : Migration :=
  {| connection := "sqlite"; migration_directory := "databases.migrations";
     command_class := false; schema_dry := false |}.
Definition in_db_migs : Migration :=
  {| connection := "default"; migration_directory := "db.migs";
     command_class := false; schema_dry := false |}.

Definition empty_table : table := {| rows := []; next_id := 1 |}.
Definition fresh : state DB := init_state [] empty_table.

(** The ledger after [users] was migrated alone. *)
Definition users_table : table :=
  {| rows := [ {| migration_id := 1; migration := users; batch := 1 |} ]; next_id := 2 |}.
Definition users_done : state DB := init_state ["CREATE TABLE users"] users_table.

(** The ledger after [users] and then [articles] were migrated by two runs. *)
Definition two_batches : table :=
  {| rows := [ {| migration_id := 1; migration := users; batch := 1 |};
               {| migration_id := 2; migration := articles; batch := 2 |} ];
     next_id := 3 |}.
Definition both_done : state DB :=
  init_state ["CREATE TABLE users"; "CREATE TABLE articles"] two_batches.

(** The states some runs end in. *)
Definition first_run : state DB :=
  Eval vm_compute in (migrate project quiet false fresh).2.
Definition second_run : state DB :=
  Eval vm_compute in (migrate project quiet false users_done).2.
Definition previewed_migrate : state DB :=
  Eval vm_compute in (migrate project quiet true users_done).2.
Definition previewed_rollback : state DB :=
  Eval vm_compute in (rollback project quiet true users_done).2.
Definition rolled_back_once : state DB :=
  Eval vm_compute in (rollback project quiet false both_done).2.
Definition rolled_back_twice : state DB :=
  Eval vm_compute in (rollback project quiet false rolled_back_once).2.
Definition users_migrated : state DB :=
  Eval vm_compute in (migrate_one broken_project quiet 1 false users fresh).2.
Definition after_reset : state DB :=
  Eval vm_compute in (reset project quiet both_done).2.
Definition after_refresh : state DB :=
  Eval vm_compute in (refresh project quiet both_done).2.

End Demo.

(** ** The ledger table and the naming convention *)

(** The columns [create_table_if_not_exists] declares on the blueprint. *)
Inductive column :=
| Increments (name : string)
| ColString (name : string)
| ColInteger (name : string).

Section LedgerTable.
Context {DB : Type}.

(** The two calls made on the runner's own [Schema], which is not part of
    the sources at hand: [schema.has_table(name)] read off the database, and
    the effect on the database of a block [with schema.create(name) as table]
    that declares the given columns, for a schema built with the given [dry]
    flag. *)
Variable has_table : string → DB → bool.
Variable schema_create : bool → string → list column → DB → DB.

(** [Migration.create_table_if_not_exists]. *)
Definition create_table_if_not_exists (self : Migration) : M DB bool := λ st,
  if negb (has_table "migrations" (db st)) then
    (Ok true,
     {| db := schema_create (schema_dry self) "migrations"
                [Increments "migration_id"; ColString "migration"; ColInteger "batch"]
                (db st);
        ledger := ledger st;
        last_migrations_ran := last_migrations_ran st;
        trace := trace st |})
  else (Ok false, st).
End LedgerTable.

(** The files whose [up()], respectively [down()], a sequence of calls
    contains, in order. *)
Definition ups (evs : list event) : list string :=
  omap (λ ev, match ev with EvUp m => Some m | _ => None end) evs.
Definition downs (evs : list event) : list string :=
  omap (λ ev, match ev with EvDown m => Some m | _ => None end) evs.

(** The key [migration_id] increases strictly along the table and stays
    below the auto-increment counter. *)
Definition id_lt (a b : MigrationRecord) : Prop := migration_id a < migration_id b.
Definition ids_ascending (t : table) : Prop :=
  StronglySorted id_lt (rows t) ∧ Forall (λ r, migration_id r < next_id t) (rows t).

(** A run maintains a property of the ledger. *)
Definition keeps {DB} (P : table → Prop) : relation (state DB) :=
  λ st st', P (ledger st) → P (ledger st').

(** A run leaves [last_migrations_ran] as it is. *)
Definition same_ran {DB} : relation (state DB) :=
  λ st st', last_migrations_ran st' = last_migrations_ran st.

(** A run leaves the database as it is. *)
Definition same_db {DB} : relation (state DB) :=
  λ st st', db st' = db st.

(** A run only appends rows to the ledger. *)
Definition only_inserts {DB} : relation (state DB) :=
  λ st st', rows (ledger st) `prefix_of` rows (ledger st').

(** A run only deletes rows of the ledger and leaves the counter alone. *)
Definition only_deletes {DB} : relation (state DB) :=
  λ st st', rows (ledger st') `sublist_of` rows (ledger st) ∧
            next_id (ledger st') = next_id (ledger st).

(** A word of a file name: ASCII characters, no underscore, no dot, no
    newline. *)
Definition plain_char (c : ascii) : bool :=
  PyStr.is_ascii c && negb (Ascii.eqb c "_") && negb (Ascii.eqb c ".") && negb (Ascii.eqb c PyStr.newline).
Fixpoint plain (s : string) : bool :=
  match s with
  | EmptyString => true
  | String c r => plain_char c && plain r
  end.

(** A word with its first letter in upper case. *)
Definition capitalize (w : string) : string :=
  match w with
  | EmptyString => EmptyString
  | String c r => String (PyStr.upper c) r
  end.

(** Every unit of the environment leaves the database alone when its schema
    is in dry mode. *)
Definition units_honour_dry {DB} (e : env DB) : Prop :=
  ∀ path u, modules e !! path = Some u →
    ∀ c d, (up u c true d).2 = d ∧ (down u c true d).2 = d.

Module DemoMore.
Import Demo.

(** The schema calls on the demo database: a table exists once its
    [CREATE TABLE] statement was executed. *)
Definition has_table (name : string) (d : DB) : bool :=
  bool_decide (("CREATE TABLE " ++ name)%string ∈ d).
Definition schema_create (dry : bool) (name : string) (cols : list column) (d : DB) : DB :=
  if dry then d else d ++ [("CREATE TABLE " ++ name)%string].

(** A unit whose [up()] executes one statement and then raises. *)
Definition failing_unit : MigrationUnit DB :=
  {| up := λ _ _ d, (Raise (UnitError "QueryException"), d ++ ["CREATE TABLE half"]);
     down := λ _ _ d, (Raise (UnitError "QueryException"), d) |}.

(** The project with [articles] replaced by the failing unit. *)
Definition failing_project : env DB :=
  {| cwd := "/app";
     dirs := {[ "/app/databases/migrations" := [ file articles; file users ] ]};
     modules :=
       {[ "databases.migrations.2018_01_09_043202_create_users_table.CreateUsersTable" :=
            sql_unit "CREATE TABLE users" "DROP TABLE users";
          "databases.migrations.2018_01_09_043203_create_articles_table.CreateArticlesTable" :=
            failing_unit ]};
     other_objects := ∅;
     failing_imports := ∅;
     upper_wide := λ ch, ch |}.

(** The broken project where the module of the third file fails while it
    is imported, and where the path of the third file leads to an object
    that is no class. *)
Definition locked_project : env DB :=
  {| cwd := cwd broken_project; dirs := dirs broken_project;
     modules := modules broken_project;
     other_objects := ∅;
     failing_imports :=
       {[ "databases.migrations.2018_01_09_043204_create_orphans_table.CreateOrphansTable" ]};
     upper_wide := λ ch, ch |}.
Definition stray_project : env DB :=
  {| cwd := cwd broken_project; dirs := dirs broken_project;
     modules := modules broken_project;
     other_objects :=
       {[ "databases.migrations.2018_01_09_043204_create_orphans_table.CreateOrphansTable" ]};
     failing_imports := ∅;
     upper_wide := λ ch, ch |}.

(** A ledger that records [users] in two batches, and the state a rollback
    leaves it in. *)
Definition users_twice : state DB :=
  init_state ["CREATE TABLE users"]
    {| rows := [ {| migration_id := 1; migration := users; batch := 1 |};
                 {| migration_id := 2; migration := users; batch := 2 |} ];
       next_id := 3 |}.
Definition users_twice_rolled_back : state DB :=
  Eval vm_compute in (rollback project quiet false users_twice).2.

(** A unit whose [down()] runs a raw statement and builds no blueprint. *)
Definition raw_unit : MigrationUnit DB :=
  {| up := λ _ dry d,
       (Ok {| _blueprint := Some "CREATE TABLE users"; _sql := "" |},
        if dry then d else d ++ ["CREATE TABLE users"]);
     down := λ _ dry d,
       (Ok {| _blueprint := None; _sql := "DROP TABLE users" |},
        if dry then d else d ++ ["DROP TABLE users"]) |}.
Definition raw_project : env DB :=
  {| cwd := "/app";
     dirs := {[ "/app/databases/migrations" := [ file users ] ]};
     modules :=
       {[ "databases.migrations.2018_01_09_043202_create_users_table.CreateUsersTable" :=
            raw_unit ]};
     other_objects := ∅;
     failing_imports := ∅;
     upper_wide := λ ch, ch |}.

(** A unit that names, in the statement it executes, the connection it was
    built with, and its own default when it was built without one. *)
Definition bound_unit (name : string) : MigrationUnit DB :=
  {| up := λ conn dry d,
       (Ok {| _blueprint := Some ("CREATE TABLE " ++ name)%string; _sql := "" |},
        if dry then d
        else d ++ [("CREATE TABLE " ++ name ++ " ON " ++ default "default" conn)%string]);
     down := λ conn dry d,
       (Ok {| _blueprint := Some ("DROP TABLE " ++ name)%string; _sql := "" |},
        if dry then d
        else d ++ [("DROP TABLE " ++ name ++ " ON " ++ default "default" conn)%string]) |}.
Definition bound_project : env DB :=
  {| cwd := "/app";
     dirs := {[ "/app/databases/migrations" := [ file users ] ]};
     modules :=
       {[ "databases.migrations.2018_01_09_043202_create_users_table.CreateUsersTable" :=
            bound_unit "users" ]};
     other_objects := ∅;
     failing_imports := ∅;
     upper_wide := λ ch, ch |}.
Definition users_on_sqlite : state DB :=
  init_state ["CREATE TABLE users ON sqlite"] users_table.

(** The demo project after the file of [db/migs] was removed. *)
Definition emptied_project : env DB :=
  {| cwd := "/app";
     dirs := {[ "/app/databases/migrations" :=
                  [ file articles; file "__init__.py";
                    {| d_name := "__pycache__"; d_isfile := false |}; file users ];
                "/app/db/migs" := [] ]};
     modules := modules project;
     other_objects := ∅;
     failing_imports := ∅;
     upper_wide := λ ch, ch |}.

(** The demo project without its directory [databases/migrations]. *)
Definition bare_project : env DB :=
  {| cwd := "/app"; dirs := ∅; modules := modules project;
     other_objects := ∅; failing_imports := ∅; upper_wide := λ ch, ch |}.

(** The states some further runs end in. *)
Definition rolled_back_second : state DB :=
  Eval vm_compute in (rollback project quiet false second_run).2.
Definition all_rolled_back : state DB :=
  Eval vm_compute in (rollback_all project quiet both_done).2.
Definition bare_reset : state DB :=
  Eval vm_compute in (reset bare_project quiet users_done).2.
Definition users_applied : state DB :=
  Eval vm_compute in (migrate_one failing_project quiet 1 false users fresh).2.
End DemoMore.

(** * Properties *)

(** ** Running computations *)

Lemma bind_run {DB A B} (c : M DB A) (f : A → M DB B) (st : state DB) :
  (c ≫= f) st =
  match c st with
  | (Ok a, st') => f a st'
  | (Raise x, st') => (Raise x, st')
  end.
Proof. reflexivity. Qed.

Lemma bind_ok {DB A B} (c : M DB A) (f : A → M DB B) (st : state DB) b st' :
  (c ≫= f) st = (Ok b, st') ↔ ∃ a st1, c st = (Ok a, st1) ∧ f a st1 = (Ok b, st').
Proof.
  rewrite bind_run. split.
  - destruct (c st) as [[a|x] st1]; [eauto | discriminate].
  - intros (a & st1 & -> & H). done.
Qed.

Lemma ret_ok {DB A} (a b : A) (st st' : state DB) :
  mret (M := M DB) a st = (Ok b, st') ↔ a = b ∧ st = st'.
Proof.
  unfold mret, M_ret. split; [intros [= -> ->] | intros [-> ->]]; done.
Qed.

Lemma locate_result_unit {DB} (e : env DB) path u :
  locate_result e path = Ok (LocUnit u) ↔ modules e !! path = Some u.
Proof.
  unfold locate_result. split.
  - destruct (modules e !! path); [by intros [= ->]|].
    repeat case_decide; discriminate.
  - by intros ->.
Qed.

(** Taking a completed run apart, one call at a time. *)
Ltac inv_ok_step :=
  match goal with
  | H : (_ ≫= _) _ = (Ok _, _) |- _ =>
      apply bind_ok in H; destruct H as (? & ? & ? & H)
  | H : mret _ _ = (Ok _, _) |- _ => apply ret_ok in H; destruct H as [? ?]; subst
  | H : raise _ _ = (Ok _, _) |- _ => discriminate H
  | H : emit _ _ = (Ok _, _) |- _ => unfold emit in H; simplify_eq
  | H : line _ _ = (Ok _, _) |- _ => unfold line in H
  | H : report _ _ _ = (Ok _, _) |- _ => unfold report in H
  | H : modify_ledger _ _ = (Ok _, _) |- _ => unfold modify_ledger in H; simplify_eq
  | H : read_ledger _ = (Ok _, _) |- _ => unfold read_ledger in H; simplify_eq
  | H : append_last_migrations_ran _ _ = (Ok _, _) |- _ =>
      unfold append_last_migrations_ran in H; simplify_eq
  | H : pydoc_locate _ _ _ = (Ok _, _) |- _ => unfold pydoc_locate in H
  | H : locate _ _ _ _ = (Ok _, _) |- _ => unfold locate in H
  | H : match locate_result ?e ?p with Ok _ => _ | Raise _ => _ end _ = (Ok _, _) |- _ =>
      destruct (locate_result e p) eqn:?
  | H : instantiate _ ?c _ _ = (Ok _, _) |- _ =>
      unfold instantiate in H; first [is_var c; destruct c | destruct c eqn:?]
  | H : schema_dry_on _ _ = (Ok _, _) |- _ => unfold schema_dry_on in H
  | H : call_up _ _ = (Ok _, _) |- _ => unfold call_up in H
  | H : call_down _ _ = (Ok _, _) |- _ => unfold call_down in H
  | H : model_create _ _ _ = (Ok _, _) |- _ => unfold model_create in H
  | H : delete_migration _ _ = (Ok _, _) |- _ => unfold delete_migration in H
  | H : delete_migrations _ _ = (Ok _, _) |- _ => unfold delete_migrations in H
  | H : blueprint_to_sql ?s _ = (Ok _, _) |- _ =>
      unfold blueprint_to_sql in H; destruct (_blueprint s) eqn:?
  | H : run_unit ?f ?i ?st = (Ok _, _) |- _ =>
      unfold run_unit in H;
      destruct (f (i_connection i) (i_dry i) (db st)) as [[?|?] ?] eqn:?;
      [simplify_eq | discriminate H]
  | H : (if ?b then _ else _) _ = (Ok _, _) |- _ => destruct b eqn:?
  end.
Ltac inv_ok := repeat (inv_ok_step; simpl in *).

Section Loops.
Context {DB : Type} {A : Type}.
Implicit Types (st : state DB) (body : A → M DB ()).

Lemma for_each_cons_ok body x l st st' :
  for_each (x :: l) body st = (Ok (), st') ↔
  ∃ st1, body x st = (Ok (), st1) ∧ for_each l body st1 = (Ok (), st').
Proof.
  simpl. rewrite bind_ok. split.
  - intros ([] & st1 & ? & ?); eauto.
  - intros (st1 & ? & ?); eauto.
Qed.

(** A loop stops at the first iteration that raises. *)
Lemma for_each_abort body done x rest st st1 st2 err :
  for_each done body st = (Ok (), st1) →
  body x st1 = (Raise err, st2) →
  for_each (done ++ x :: rest) body st = (Raise err, st2).
Proof.
  revert st. induction done as [|y done IH]; intros st Hdone Hx.
  - simpl in Hdone. apply ret_ok in Hdone as [_ ->].
    simpl. by rewrite bind_run, Hx.
  - apply for_each_cons_ok in Hdone as (st0 & Hy & Hdone).
    simpl. rewrite bind_run, Hy. by apply IH.
Qed.

(** A completed loop, from what each completed iteration does to the
    trace, the ledger and [last_migrations_ran]. *)
Lemma for_each_ok body (P : A → list event → Prop)
    (on_ledger : A → table → table) (ran : A → list string) :
  (∀ x st st', body x st = (Ok (), st') →
     ∃ evs, trace st' = trace st ++ evs ∧ P x evs ∧
            ledger st' = on_ledger x (ledger st) ∧
            last_migrations_ran st' = last_migrations_ran st ++ ran x) →
  ∀ l st st', for_each l body st = (Ok (), st') →
    ∃ evss, Forall2 P l evss ∧
            trace st' = trace st ++ concat evss ∧
            ledger st' = foldl (λ t x, on_ledger x t) (ledger st) l ∧
            last_migrations_ran st' = last_migrations_ran st ++ concat (ran <$> l).
Proof.
  intros Hbody l. induction l as [|x l IH]; intros st st' Hrun.
  - simpl in Hrun. apply ret_ok in Hrun as [_ ->].
    exists []. simpl. rewrite !app_nil_r. by repeat split.
  - apply for_each_cons_ok in Hrun as (st1 & Hx & Hrun).
    destruct (Hbody _ _ _ Hx) as (evs & Ht & HP & Hl & Hr).
    destruct (IH _ _ Hrun) as (evss & HF & Ht' & Hl' & Hr').
    exists (evs :: evss). simpl.
    rewrite Ht', Ht, Hl', Hl, Hr', Hr, <- !app_assoc.
    by repeat split; [constructor|..].
Qed.

(** A relation between the states before and after that every iteration
    maintains, whatever it ends with, is maintained by the loop. *)
Lemma for_each_maintains (R : relation (state DB)) `{!PreOrder R} body :
  (∀ x st, R st (body x st).2) →
  ∀ l st, R st (for_each l body st).2.
Proof.
  intros Hbody l. induction l as [|x l IH]; intros st; simpl; [reflexivity|].
  rewrite bind_run. specialize (Hbody x st).
  destruct (body x st) as [[[]|err] st1]; simpl in *; [|done].
  etrans; [exact Hbody | apply IH].
Qed.
End Loops.

Lemma bind_maintains {DB A B} (R : relation (state DB)) `{!PreOrder R}
    (c : M DB A) (f : A → M DB B) :
  (∀ st, R st (c st).2) → (∀ a st, R st (f a st).2) →
  ∀ st, R st ((c ≫= f) st).2.
Proof.
  intros Hc Hf st. rewrite bind_run. specialize (Hc st).
  destruct (c st) as [[a|err] st1]; simpl in *; [|done].
  etrans; [exact Hc | apply Hf].
Qed.

(** ** The ledger operations *)

Section LedgerFacts.
Implicit Types (c : list MigrationRecord) (t : table) (r : MigrationRecord).



Lemma foldl_max_le_init (bs : list Z) (b : Z) : b ≤ foldl Z.max b bs.
Proof.
  revert b. induction bs as [|y bs IH]; intros b; simpl; [lia|].
  etrans; [|apply IH]. lia.
Qed.

Lemma foldl_max_ge (bs : list Z) (b x : Z) : x ∈ bs → x ≤ foldl Z.max b bs.
Proof.
  revert b. induction bs as [|y bs IH]; intros b Hin; simpl.
  - by apply elem_of_nil in Hin.
  - apply elem_of_cons in Hin as [->|Hin]; [|by apply IH].
    etrans; [|apply foldl_max_le_init]. lia.
Qed.

Lemma foldl_max_elem (bs : list Z) (b : Z) :
  foldl Z.max b bs = b ∨ foldl Z.max b bs ∈ bs.
Proof.
  revert b. induction bs as [|y bs IH]; intros b; simpl; [by left|].
  destruct (IH (Z.max b y)) as [->|Hin].
  - destruct (Z.max_spec b y) as [[_ ->]|[_ ->]]; [right; left | by left].
  - right. by right.
Qed.

Lemma max_batch_nil : Ledger.max_batch [] = 0.
Proof. reflexivity. Qed.

Lemma max_batch_ge c r : r ∈ c → batch r ≤ Ledger.max_batch c.
Proof.
  unfold Ledger.max_batch. destruct c as [|r0 c]; [|rewrite fmap_cons].
  - intros H. by apply elem_of_nil in H.
  - intros [->|Hin]%elem_of_cons; [apply foldl_max_le_init|].
    apply foldl_max_ge. by apply list_elem_of_fmap_2.
Qed.

Lemma max_batch_elem c : c ≠ [] → ∃ r, r ∈ c ∧ batch r = Ledger.max_batch c.
Proof.
  unfold Ledger.max_batch. destruct c as [|r0 c]; [done|]. intros _.
  rewrite fmap_cons.
  destruct (foldl_max_elem (batch <$> c) (batch r0)) as [Heq|Hin].
  - exists r0. split; [by left | done].
  - apply list_elem_of_fmap in Hin as (r & Hr & Hin). exists r. split; [by right | done].
Qed.

Global Instance id_ge_preorder : PreOrder Ledger.id_ge.
Proof. split; unfold Ledger.id_ge; [intros ?; lia | intros ???; lia]. Qed.
Global Instance id_ge_total : Total Ledger.id_ge.
Proof. intros a b. unfold Ledger.id_ge. lia. Qed.

Lemma order_by_desc_perm c : Ledger.order_by_migration_id_desc c ≡ₚ c.
Proof. apply merge_sort_Permutation. Qed.

Lemma order_by_desc_sorted c :
  StronglySorted Ledger.id_ge (Ledger.order_by_migration_id_desc c).
Proof. apply StronglySorted_merge_sort; apply _. Qed.

Lemma foldl_create b ms t :
  foldl (λ t m, Ledger.create m b t) t ms =
  {| rows := rows t ++ new_records (next_id t) b ms;
     next_id := next_id t + Z.of_nat (length ms) |}.
Proof.
  revert t. induction ms as [|m ms IH]; intros t; simpl.
  - destruct t; simpl. by rewrite app_nil_r, Z.add_0_r.
  - rewrite IH. simpl. rewrite <- app_assoc. simpl. f_equal. lia.
Qed.

Lemma foldl_delete (g : string → table → table) ms t :
  (∀ m t, g m t = Ledger.delete_where_migration m t) →
  foldl (λ t m, g m t) t ms =
  {| rows := filter (λ r, migration r ∉ ms) (rows t); next_id := next_id t |}.
Proof.
  intros Hg. revert t. induction ms as [|m ms IH]; intros t; simpl.
  - destruct t as [c n]; simpl. f_equal.
    induction c as [|r c IHr]; [done|].
    rewrite filter_cons_True by apply not_elem_of_nil.
    f_equal. exact IHr.
  - rewrite IH, Hg. simpl. f_equal.
    rewrite list_filter_filter. apply list_filter_iff. intros r.
    rewrite not_elem_of_cons. tauto.
Qed.

Lemma pluck_new_records i b ms : Ledger.pluck_migration (new_records i b ms) = ms.
Proof. revert i. induction ms as [|m ms IH]; intros i; simpl; [done|]. by rewrite IH. Qed.

Lemma batch_new_records i b ms : Forall (λ r, batch r = b) (new_records i b ms).
Proof. revert i. induction ms as [|m ms IH]; intros i; simpl; constructor; auto. Qed.

Lemma unique_names_inj t r r' :
  unique_names t → r ∈ rows t → r' ∈ rows t → migration r = migration r' → r = r'.
Proof.
  unfold unique_names, Ledger.pluck_migration. generalize (rows t). clear t.
  intros c. induction c as [|x c IH]; intros Hnd Hr Hr' Heq.
  - by apply elem_of_nil in Hr.
  - rewrite fmap_cons in Hnd. apply NoDup_cons in Hnd as [Hx Hnd].
    apply elem_of_cons in Hr as [->|Hr]; apply elem_of_cons in Hr' as [->|Hr']; auto.
    + exfalso. apply Hx. rewrite Heq. by apply list_elem_of_fmap_2.
    + exfalso. apply Hx. rewrite <- Heq. by apply list_elem_of_fmap_2.
Qed.
End LedgerFacts.

(** ** Completed iterations *)

Section Iterations.
Context {DB : Type} (e : env DB) (self : Migration).
Implicit Types (st : state DB) (m : string).

Lemma migrate_one_ok b output m st st' :
  migrate_one e self b output m st = (Ok (), st') →
  ∃ u schema,
    modules e !! unit_path e self m = Some u ∧
    up u (Some (connection self)) output (db st) = (Ok schema, db st') ∧
    (output = true → is_Some (_blueprint schema)) ∧
    trace st' = trace st ++ migrate_events e self b output m schema ∧
    ledger st' = (if output && command_class self then ledger st
                  else Ledger.create m b (ledger st)) ∧
    last_migrations_ran st' = last_migrations_ran st ++ [m].
Proof.
  unfold migrate_one. intros H. inv_ok.
  all: eexists _, _; split_and!;
    [by apply locate_result_unit | eassumption | try done; eauto | ..].
  all: unfold migrate_events, report_events; simpl;
    repeat match goal with H : _ = _ |- _ => rewrite H end;
    simpl; rewrite <- ?app_assoc; try done.
Qed.

Lemma rollback_one_ok output m st st' :
  rollback_one e self output m st = (Ok (), st') →
  ∃ u schema,
    modules e !! unit_path e self m = Some u ∧
    down u (Some (connection self)) output (db st) = (Ok schema, db st') ∧
    trace st' = trace st ++ rollback_events e self output m schema ∧
    ledger st' = (if output && command_class self then ledger st
                  else Ledger.delete_where_migration m (ledger st)) ∧
    last_migrations_ran st' = last_migrations_ran st.
Proof.
  unfold rollback_one. intros H. inv_ok.
  all: eexists _, _; split_and!; [by apply locate_result_unit | eassumption | ..].
  all: unfold rollback_events, report_events; simpl;
    repeat match goal with H : _ = _ |- _ => rewrite H end;
    simpl; rewrite <- ?app_assoc; try done.
Qed.

Lemma reset_one_ok m st st' :
  reset_one e self m st = (Ok (), st') →
  trace st' = trace st ++ reset_events e self m ∧
  ledger st' = Ledger.delete_where_migration_in [m]
                 (Ledger.delete_where_migration m (ledger st)) ∧
  last_migrations_ran st' = last_migrations_ran st.
Proof.
  unfold reset_one. intros H. inv_ok.
  all: split_and!; try done.
  all: unfold reset_events, report_events; simpl;
    repeat match goal with H : _ = _ |- _ => rewrite H end;
    simpl; rewrite <- ?app_assoc; try done.
Qed.

Lemma rollback_all_one_ok m st st' :
  rollback_all_one e self m st = (Ok (), st') →
  trace st' = trace st ++ rollback_all_events e self m ∧
  ledger st' = Ledger.delete_where_migration m (ledger st) ∧
  last_migrations_ran st' = last_migrations_ran st.
Proof.
  unfold rollback_all_one. intros H. inv_ok.
  split_and!; try done.
  unfold rollback_all_events. simpl. by rewrite <- ?app_assoc.
Qed.
End Iterations.

(** ** Completed runs *)

Lemma concat_singletons {A} (l : list A) : concat ((λ x, [x]) <$> l) = l.
Proof. induction l as [|x l IH]; csimpl; [done | by rewrite IH]. Qed.

Lemma concat_nils {A B} (l : list A) : concat ((λ _, @nil B) <$> l) = [].
Proof. induction l as [|x l IH]; csimpl; done. Qed.

Lemma foldl_const {A B} (l : list A) (b : B) : foldl (λ t _, t) b l = b.
Proof. induction l as [|x l IH]; csimpl; done. Qed.

Lemma delete_in_singleton m t :
  Ledger.delete_where_migration_in [m] (Ledger.delete_where_migration m t) =
  Ledger.delete_where_migration m t.
Proof.
  unfold Ledger.delete_where_migration_in, Ledger.delete_where_migration. simpl. f_equal.
  rewrite list_filter_filter. apply list_filter_iff. intros r.
  rewrite list_elem_of_singleton. tauto.
Qed.

Lemma list_filter_none {A} (P : A → Prop) `{∀ x, Decision (P x)} (l : list A) :
  (∀ x, x ∈ l → ¬ P x) → filter P l = [].
Proof.
  induction l as [|x l IH]; intros Hl; [done|].
  rewrite filter_cons_False by (apply Hl; by left).
  apply IH. intros y Hy. apply Hl. by right.
Qed.

Lemma Forall2_fmap_eq {A B} (f : A → B) (l : list A) (k : list B) :
  Forall2 (λ x y, y = f x) l k → k = f <$> l.
Proof. induction 1; csimpl; [done | by f_equal]. Qed.

Lemma reverse_names_all t r : r ∈ rows t → migration r ∈ reverse_names t.
Proof.
  intros Hr. unfold reverse_names, Ledger.pluck_migration.
  apply list_elem_of_fmap_2. by rewrite order_by_desc_perm.
Qed.

Section Methods.
Context {DB : Type} (e : env DB) (self : Migration).
Implicit Types (st : state DB) (m : string).

Lemma get_unran_migrations_run st :
  get_unran_migrations e st =
  match dirs e !! discovery_directory e with
  | None => (Raise FileNotFoundError, st)
  | Some entries => (Ok (pending_of entries (ledger st)), st)
  end.
Proof.
  unfold get_unran_migrations, listdir, discovery_directory.
  rewrite bind_run. by destruct (dirs e !! _).
Qed.

Lemma get_rollback_migrations_run st :
  get_rollback_migrations st = (Ok (rollback_names (ledger st)), st).
Proof. reflexivity. Qed.

Lemma get_all_migrations_run reverse st :
  get_all_migrations reverse st =
  (Ok (if reverse then reverse_names (ledger st)
       else Ledger.pluck_migration (rows (ledger st))), st).
Proof. by destruct reverse. Qed.

Lemma get_last_batch_number_run st :
  get_last_batch_number st = (Ok (Ledger.max_batch (rows (ledger st))), st).
Proof. reflexivity. Qed.

(** What a completed [migrate] has done. *)
Lemma migrate_ok output st st' :
  migrate e self output st = (Ok (), st') →
  ∃ entries evss,
    dirs e !! discovery_directory e = Some entries ∧
    let pending := pending_of entries (ledger st) in
    let b := Ledger.max_batch (rows (ledger st)) + 1 in
    Forall2 (λ m evs, ∃ schema, (output = true → is_Some (_blueprint schema)) ∧
                                evs = migrate_events e self b output m schema)
            pending evss ∧
    trace st' = trace st ++ concat evss ∧
    ledger st' =
      (if output && command_class self then ledger st
       else {| rows := rows (ledger st) ++ new_records (next_id (ledger st)) b pending;
               next_id := next_id (ledger st) + Z.of_nat (length pending) |}) ∧
    last_migrations_ran st' = last_migrations_ran st ++ pending.
Proof.
  unfold migrate. intros H.
  apply bind_ok in H as (b0 & st1 & Hb & H).
  rewrite get_last_batch_number_run in Hb. simplify_eq.
  apply bind_ok in H as (pending & st2 & Hp & H).
  rewrite get_unran_migrations_run in Hp.
  destruct (dirs e !! discovery_directory e) as [entries|] eqn:Hd; [|done].
  simplify_eq. exists entries.
  pose (b := Ledger.max_batch (rows (ledger st2)) + 1).
  eapply (for_each_ok _
    (λ m evs, ∃ schema, (output = true → is_Some (_blueprint schema)) ∧
              evs = migrate_events e self b output m schema)
    (λ m t, if output && command_class self then t else Ledger.create m b t)
    (λ m, [m])) in H.
  - destruct H as (evss & HF & Ht & Hl & Hr). exists evss.
    split_and!; try done.
    + rewrite Hl. destruct (output && command_class self).
      * apply foldl_const.
      * apply foldl_create.
    + by rewrite Hr, concat_singletons.
  - intros m s s' Hm. apply migrate_one_ok in Hm as (u & schema & _ & _ & Hb & Ht & Hl & Hr).
    eauto 10.
Qed.

(** What a completed [rollback] has done. *)
Lemma rollback_ok output st st' :
  rollback e self output st = (Ok (), st') →
  let names := rollback_names (ledger st) in
  ∃ evss,
    Forall2 (λ m evs, ∃ schema, evs = rollback_events e self output m schema) names evss ∧
    trace st' = trace st ++ concat evss ∧
    ledger st' =
      (if output && command_class self then ledger st
       else {| rows := filter (λ r, migration r ∉ names) (rows (ledger st));
               next_id := next_id (ledger st) |}) ∧
    last_migrations_ran st' = last_migrations_ran st.
Proof.
  unfold rollback. intros H.
  apply bind_ok in H as (names & st1 & Hn & H).
  rewrite get_rollback_migrations_run in Hn. simplify_eq.
  eapply (for_each_ok _
    (λ m evs, ∃ schema, evs = rollback_events e self output m schema)
    (λ m t, if output && command_class self then t
            else Ledger.delete_where_migration m t)
    (λ _, [])) in H.
  - destruct H as (evss & HF & Ht & Hl & Hr). exists evss.
    split_and!; try done.
    + rewrite Hl. destruct (output && command_class self).
      * apply foldl_const.
      * by apply foldl_delete.
    + by rewrite Hr, concat_nils, app_nil_r.
  - intros m s s' Hm. apply rollback_one_ok in Hm as (u & schema & _ & _ & Ht & Hl & Hr).
    exists (rollback_events e self output m schema). rewrite app_nil_r. eauto 10.
Qed.

(** What a completed [reset] has done. *)
Lemma reset_ok st st' :
  reset e self st = (Ok (), st') →
  trace st' = trace st ++ concat (reset_events e self <$> reverse_names (ledger st)) ++
              report_events self EmptyLine ∧
  ledger st' = {| rows := []; next_id := next_id (ledger st) |} ∧
  last_migrations_ran st' = last_migrations_ran st.
Proof.
  unfold reset. intros H.
  apply bind_ok in H as (names & st1 & Hn & H).
  rewrite get_all_migrations_run in Hn. simplify_eq.
  apply bind_ok in H as ([] & st2 & H & Hrep).
  eapply (for_each_ok _ (λ m evs, evs = reset_events e self m)
    (λ m t, Ledger.delete_where_migration_in [m] (Ledger.delete_where_migration m t))
    (λ _, [])) in H.
  - destruct H as (evss & HF & Ht & Hl & Hr).
    apply Forall2_fmap_eq in HF as ->.
    rewrite concat_nils, app_nil_r in Hr.
    rewrite (foldl_delete _ _ _ delete_in_singleton) in Hl.
    rewrite list_filter_none in Hl.
    2:{ intros r Hin Hnot. apply Hnot. by apply reverse_names_all. }
    unfold report, report_events, line, emit in *.
    destruct (command_class self); inv_ok; simplify_eq; simpl.
    + rewrite Ht, Hl, Hr, <- app_assoc. done.
    + rewrite Ht, Hl, Hr, app_nil_r. done.
  - intros m s s' Hm. apply reset_one_ok in Hm as (Ht & Hl & Hr).
    exists (reset_events e self m). rewrite app_nil_r. eauto.
Qed.

(** What a completed [rollback_all] has done. *)
Lemma rollback_all_ok st st' :
  rollback_all e self st = (Ok (), st') →
  let names := Ledger.pluck_migration (rows (ledger st)) in
  trace st' = trace st ++ concat (rollback_all_events e self <$> names) ++
              [EvDeleteIn names] ∧
  ledger st' = {| rows := []; next_id := next_id (ledger st) |} ∧
  last_migrations_ran st' = last_migrations_ran st.
Proof.
  unfold rollback_all. intros H.
  apply bind_ok in H as (names & st1 & Hn & H).
  rewrite get_all_migrations_run in Hn. simplify_eq.
  apply bind_ok in H as ([] & st2 & H & Hdel).
  eapply (for_each_ok _ (λ m evs, evs = rollback_all_events e self m)
    (λ m t, Ledger.delete_where_migration m t) (λ _, [])) in H.
  - destruct H as (evss & HF & Ht & Hl & Hr).
    apply Forall2_fmap_eq in HF as ->.
    rewrite concat_nils, app_nil_r in Hr.
    rewrite (foldl_delete _ _ _ (λ _ _, eq_refl)) in Hl.
    rewrite list_filter_none in Hl.
    2:{ intros r Hin Hnot. apply Hnot. by apply list_elem_of_fmap_2. }
    inv_ok. rewrite Ht, Hl, Hr, <- app_assoc. done.
  - intros m s s' Hm. apply rollback_all_one_ok in Hm as (Ht & Hl & Hr).
    exists (rollback_all_events e self m). rewrite app_nil_r. eauto.
Qed.
End Methods.

(** ** The database after a completed run *)

Section Databases.
Context {DB : Type} (e : env DB) (self : Migration).
Implicit Types (st : state DB) (m : string).

Lemma for_each_units f conn dry body l st st' :
  (∀ m s s', body m s = (Ok (), s') →
     ∃ u schema, modules e !! unit_path e self m = Some u ∧
                 f u conn dry (db s) = (Ok schema, db s')) →
  for_each l body st = (Ok (), st') →
  units_on e self f conn dry l (db st) = Some (db st').
Proof.
  intros Hbody. revert st. induction l as [|m l IH]; intros st H.
  - apply ret_ok in H as [_ <-]. done.
  - apply for_each_cons_ok in H as (st1 & Hm & H).
    apply Hbody in Hm as (u & schema & Hu & Hf).
    simpl. rewrite Hu, Hf. by apply IH.
Qed.

Lemma reset_one_db m st st' :
  reset_one e self m st = (Ok (), st') →
  ∃ u schema, modules e !! unit_path e self m = Some u ∧
              down u (Some (connection self)) false (db st) = (Ok schema, db st').
Proof.
  unfold reset_one. intros H. inv_ok.
  all: eexists _, _; split; [by apply locate_result_unit | eassumption].
Qed.

Lemma rollback_all_one_db m st st' :
  rollback_all_one e self m st = (Ok (), st') →
  ∃ u schema, modules e !! unit_path e self m = Some u ∧
              down u None false (db st) = (Ok schema, db st').
Proof.
  unfold rollback_all_one. intros H. inv_ok.
  eexists _, _; split; [by apply locate_result_unit | eassumption].
Qed.

(** A completed [migrate] leaves the database that the [up()] of the
    pending units leave, one after the other. *)
Lemma migrate_db output st st' pending :
  get_unran_migrations e st = (Ok pending, st) →
  migrate e self output st = (Ok (), st') →
  ups_on e self (Some (connection self)) output pending (db st) = Some (db st').
Proof.
  unfold migrate. intros Hp H.
  apply bind_ok in H as (b0 & st1 & Hb & H).
  rewrite get_last_batch_number_run in Hb. simplify_eq.
  apply bind_ok in H as (pending' & st2 & Hp' & H).
  rewrite Hp in Hp'. simplify_eq.
  eapply for_each_units; [|exact H].
  intros m s s' Hm.
  apply migrate_one_ok in Hm as (u & schema & Hu & Hup & _). eauto.
Qed.

(** A completed [rollback] leaves the database that the [down()] of the
    units of the latest batch leave. *)
Lemma rollback_db output st st' :
  rollback e self output st = (Ok (), st') →
  downs_on e self (Some (connection self)) output (rollback_names (ledger st)) (db st)
    = Some (db st').
Proof.
  unfold rollback. intros H.
  apply bind_ok in H as (names & st1 & Hn & H).
  rewrite get_rollback_migrations_run in Hn. simplify_eq.
  eapply for_each_units; [|exact H].
  intros m s s' Hm.
  apply rollback_one_ok in Hm as (u & schema & Hu & Hdown & _). eauto.
Qed.

Lemma reset_db st st' :
  reset e self st = (Ok (), st') →
  downs_on e self (Some (connection self)) false (reverse_names (ledger st)) (db st)
    = Some (db st').
Proof.
  unfold reset. intros H.
  apply bind_ok in H as (names & st1 & Hn & H).
  rewrite get_all_migrations_run in Hn. simplify_eq.
  apply bind_ok in H as ([] & st2 & H & Hrep).
  assert (db st' = db st2) as ->.
  { unfold report, line, emit in Hrep.
    destruct (command_class self); [|apply ret_ok in Hrep as [_ <-]]; by simplify_eq. }
  eapply for_each_units; [|exact H].
  intros m s s'. apply reset_one_db.
Qed.

Lemma rollback_all_db st st' :
  rollback_all e self st = (Ok (), st') →
  downs_on e self None false (Ledger.pluck_migration (rows (ledger st))) (db st)
    = Some (db st').
Proof.
  unfold rollback_all. intros H.
  apply bind_ok in H as (names & st1 & Hn & H).
  rewrite get_all_migrations_run in Hn. simplify_eq.
  apply bind_ok in H as ([] & st2 & H & Hdel).
  assert (db st' = db st2) as ->.
  { inv_ok. done. }
  eapply for_each_units; [|exact H].
  intros m s s'. apply rollback_all_one_db.
Qed.
End Databases.

(** ** Lists *)

Lemma list_filter_ext_in {A} (P Q : A → Prop) `{∀ x, Decision (P x)} `{∀ x, Decision (Q x)}
    (l : list A) :
  (∀ x, x ∈ l → P x ↔ Q x) → filter P l = filter Q l.
Proof.
  induction l as [|x l IH]; intros Hl; [done|].
  rewrite !filter_cons. rewrite IH by (intros y Hy; apply Hl; by right).
  destruct (decide (P x)) as [HP|HP], (decide (Q x)) as [HQ|HQ]; try done.
  - exfalso. apply HQ, Hl; [by left | done].
  - exfalso. apply HP, Hl; [by left | done].
Qed.

Lemma list_filter_all {A} (P : A → Prop) `{∀ x, Decision (P x)} (l : list A) :
  (∀ x, x ∈ l → P x) → filter P l = l.
Proof.
  induction l as [|x l IH]; intros Hl; [done|].
  rewrite filter_cons_True by (apply Hl; by left).
  f_equal. apply IH. intros y Hy. apply Hl. by right.
Qed.

Lemma pending_of_empty entries t :
  rows t = [] → pending_of entries t = merge_sort String.le (candidate_files entries).
Proof.
  intros Ht. unfold pending_of, Ledger.all. rewrite Ht. apply list_filter_all.
  intros m _. apply not_elem_of_nil.
Qed.


(** Membership in a list that is written out. *)
Ltac in_list :=
  repeat first [apply list_elem_of_here | apply list_elem_of_further].
Ltac not_in_list :=
  rewrite ?not_elem_of_cons; repeat split; first [discriminate | apply not_elem_of_nil].

Lemma StronglySorted_filter {A} (R : relation A) (P : A → Prop) `{∀ x, Decision (P x)}
    (l : list A) :
  StronglySorted R l → StronglySorted R (filter P l).
Proof.
  induction 1 as [|x l Hl IH Hx]; [constructor|].
  rewrite filter_cons. destruct (decide (P x)); [|done].
  constructor; [done|].
  rewrite Forall_forall in Hx |- *. intros y [_ Hy]%list_elem_of_filter. by apply Hx.
Qed.

Lemma NoDup_fmap_filter {A B} (f : A → B) (P : A → Prop) `{∀ x, Decision (P x)}
    (l : list A) :
  NoDup (f <$> l) → NoDup (f <$> filter P l).
Proof.
  induction l as [|x l IH]; [done|]. rewrite fmap_cons, NoDup_cons. intros [Hx Hl].
  rewrite filter_cons. destruct (decide (P x)); [|by apply IH].
  rewrite fmap_cons, NoDup_cons. split; [|by apply IH].
  intros (y & Hy & [_ Hin]%list_elem_of_filter)%list_elem_of_fmap.
  apply Hx. rewrite Hy. by apply list_elem_of_fmap_2.
Qed.

(** ** Discovery and the latest batch *)

Lemma candidate_files_spec entries m :
  m ∈ candidate_files entries ↔
  ∃ d, d ∈ entries ∧ d_name d = m ∧ d_isfile d = true ∧ m ≠ "__init__.py".
Proof.
  unfold candidate_files. rewrite list_elem_of_fmap. split.
  - intros (d & -> & [[Hf Hn] Hd]%list_elem_of_filter). eauto.
  - intros (d & Hd & <- & Hf & Hn). exists d. split; [done|].
    apply list_elem_of_filter. eauto.
Qed.

Lemma pending_of_spec entries t m :
  m ∈ pending_of entries t ↔
  m ∈ candidate_files entries ∧ m ∉ Ledger.pluck_migration (rows t).
Proof.
  unfold pending_of, Ledger.all. rewrite list_elem_of_filter, merge_sort_Permutation. tauto.
Qed.

Lemma pending_of_sorted entries t : StronglySorted String.le (pending_of entries t).
Proof.
  apply StronglySorted_filter, StronglySorted_merge_sort; apply _.
Qed.

(** The names of the latest batch are those of the rows whose batch is the
    maximum. *)
Lemma rollback_names_spec t m :
  m ∈ rollback_names t ↔
  ∃ r, r ∈ rows t ∧ migration r = m ∧ batch r = Ledger.max_batch (rows t).
Proof.
  unfold rollback_names, Ledger.pluck_migration, Ledger.where_batch, Ledger.all.
  rewrite list_elem_of_fmap. split.
  - intros (r & -> & Hr). rewrite order_by_desc_perm in Hr.
    apply list_elem_of_filter in Hr as [Hb Hr]. eauto.
  - intros (r & Hr & <- & Hb). exists r. split; [done|].
    rewrite order_by_desc_perm. apply list_elem_of_filter. eauto.
Qed.

Lemma delete_latest_names t :
  unique_names t →
  filter (λ r, migration r ∉ rollback_names t) (rows t) =
  filter (λ r, batch r ≠ Ledger.max_batch (rows t)) (rows t).
Proof.
  intros Hu. apply list_filter_ext_in. intros r Hr. rewrite rollback_names_spec. split.
  - intros Hn Hb. apply Hn. eauto.
  - intros Hb (r' & Hr' & Hm & Hb'). apply Hb.
    by rewrite <- (unique_names_inj t r' r Hu Hr' Hr Hm).
Qed.

Lemma Forall2_concat_elem {A B} (P : A → list B → Prop) l evss x ev :
  Forall2 P l evss → x ∈ l → (∀ evs, P x evs → ev ∈ evs) → ev ∈ concat evss.
Proof.
  intros HF Hx HP. induction HF as [|y evs l evss Hy _ IH]; simpl.
  - by apply elem_of_nil in Hx.
  - rewrite elem_of_app. apply elem_of_cons in Hx as [->|Hx]; [left; auto | right; auto].
Qed.

Lemma Forall2_concat_not_elem {A B} (P : A → list B → Prop) l evss ev :
  Forall2 P l evss → (∀ x evs, P x evs → ev ∉ evs) → ev ∉ concat evss.
Proof.
  intros HF HP. induction HF as [|y evs l evss Hy _ IH]; simpl.
  - apply not_elem_of_nil.
  - rewrite elem_of_app. intros [?|?]; [by eapply HP | done].
Qed.

(** ** The calls of an iteration *)

Section Events.
Context {DB : Type} (e : env DB) (self : Migration).

Lemma migrate_events_create b output m schema :
  output && command_class self = false →
  EvCreate m b ∈ migrate_events e self b output m schema.
Proof.
  unfold migrate_events, report_events.
  destruct (command_class self), output; simpl; intros ?; try done; in_list.
Qed.

Lemma migrate_events_no_create b m schema m' b' :
  command_class self = true →
  EvCreate m' b' ∉ migrate_events e self b true m schema.
Proof.
  unfold migrate_events, report_events. intros ->. simpl. not_in_list.
Qed.

Lemma rollback_events_delete output m schema :
  output && command_class self = false →
  EvDelete m ∈ rollback_events e self output m schema.
Proof.
  unfold rollback_events, report_events.
  destruct (command_class self), output; simpl; intros ?; try done; in_list.
Qed.

Lemma rollback_events_no_delete m schema m' :
  command_class self = true →
  EvDelete m' ∉ rollback_events e self true m schema.
Proof.
  unfold rollback_events, report_events. intros ->. simpl. not_in_list.
Qed.
End Events.

(** ** What every run maintains *)

Global Instance grows_preorder {DB} : PreOrder (@grows DB).
Proof.
  split; unfold grows; [intros st; reflexivity|].
  intros s1 s2 s3 H1 H2. by etrans.
Qed.

Ltac maintain_step :=
  match goal with
  | |- ∀ st, _ st ((_ ≫= _) st).2 => apply bind_maintains; [apply _ | | intros ?]
  | |- ∀ st, _ st (for_each _ _ st).2 => apply for_each_maintains; [apply _ | intros ?]
  | |- ∀ st, _ st ((if ?b then _ else _) st).2 => destruct b
  | |- ∀ st, _ st ((match ?x with Some _ => _ | None => _ end) st).2 => destruct x
  end.

Section Maintained.
Context {DB : Type} (e : env DB) (self : Migration).

Ltac grows_leaf :=
  intros st;
  unfold emit, line, report, raise, modify_ledger, read_ledger, run_unit,
    append_last_migrations_ran, mret, M_ret, grows;
  simpl; repeat case_match; simpl;
  first [reflexivity | by apply prefix_app_r].

Ltac grows_all := repeat maintain_step; try grows_leaf.

Lemma migrate_grows output : ∀ st, grows st (migrate e self output st).2.
Proof.
  unfold migrate, get_last_batch_number, get_unran_migrations, listdir,
    migrate_one, pydoc_locate, instantiate, schema_dry_on, call_up,
    blueprint_to_sql, model_create.
  grows_all.
Qed.

Lemma rollback_grows output : ∀ st, grows st (rollback e self output st).2.
Proof.
  unfold rollback, get_rollback_migrations, rollback_one, locate, pydoc_locate,
    instantiate, schema_dry_on, call_down, blueprint_to_sql, delete_migration.
  grows_all.
Qed.

Lemma rollback_all_grows : ∀ st, grows st (rollback_all e self st).2.
Proof.
  unfold rollback_all, get_all_migrations, rollback_all_one, locate, pydoc_locate,
    instantiate, call_down, delete_migration, delete_migrations.
  grows_all.
Qed.

Lemma reset_grows : ∀ st, grows st (reset e self st).2.
Proof.
  unfold reset, get_all_migrations, reset_one, locate, pydoc_locate,
    instantiate, call_down, delete_migration, delete_migrations.
  grows_all.
Qed.

Lemma refresh_grows : ∀ st, grows st (refresh e self st).2.
Proof.
  unfold refresh. apply bind_maintains; [apply _ | apply reset_grows |].
  intros _. apply migrate_grows.
Qed.

Lemma run_operation_grows op : ∀ st, grows st (run_operation e self op st).2.
Proof.
  destruct op; simpl;
    auto using migrate_grows, rollback_grows, rollback_all_grows, reset_grows,
      refresh_grows.
Qed.

Lemma run_session_grows ops : ∀ st, grows st (run_session e self ops st).
Proof.
  induction ops as [|op ops IH]; intros st; simpl; [reflexivity|].
  etrans; [apply run_operation_grows | apply IH].
Qed.

(** In the calls of an iteration of [migrate], the file is appended to
    [last_migrations_ran] before its [up()] is called. *)
Lemma migrate_events_append_before_up b output m schema pre post m' :
  migrate_events e self b output m schema = pre ++ EvUp m' :: post →
  EvAppendRan m' ∈ pre.
Proof.
  unfold migrate_events, report_events.
  destruct (command_class self), output; simpl; intros H.
  all: do 8 (destruct pre as [|? pre]; simplify_eq/=; try by in_list).
Qed.
End Maintained.

Lemma append_before_up_app evs1 evs2 :
  append_before_up evs1 → append_before_up evs2 → append_before_up (evs1 ++ evs2).
Proof.
  intros H1 H2 pre post m Heq.
  apply app_eq_app in Heq as [l [[-> Heq]|[-> Heq]]].
  - destruct l as [|x l]; simpl in Heq.
    + exfalso. eapply elem_of_nil, (H2 [] post m). by rewrite <- Heq.
    + simplify_eq. by eapply H1.
  - rewrite elem_of_app. right. by eapply H2.
Qed.

Lemma append_before_up_concat {A} (P : A → list event → Prop) l evss :
  (∀ x evs, P x evs → append_before_up evs) →
  Forall2 P l evss → append_before_up (concat evss).
Proof.
  intros HP. induction 1 as [|x evs l evss Hx _ IH]; simpl.
  - intros [|? ?] ? ? ?; simplify_eq.
  - apply append_before_up_app; eauto.
Qed.

(** ** A file without a loadable unit *)

Section Missing.
Context {DB : Type} (e : env DB) (self : Migration).
Implicit Types (st : state DB) (m : string).

(** [Migration.locate] logs the call and ends as [pydoc.locate] does. *)
Lemma locate_run m st :
  locate e self m st =
  (locate_result e (unit_path e self m),
   {| db := db st; ledger := ledger st;
      last_migrations_ran := last_migrations_ran st;
      trace := trace st ++ [EvLocate (unit_path e self m)] |}).
Proof.
  unfold locate, pydoc_locate. rewrite bind_run. simpl.
  by destruct (locate_result e (unit_path e self m)).
Qed.

(** An iteration of [migrate] on a file under whose path there is no class:
    the name is appended, the status line is sent, and the call raises. *)
Lemma migrate_one_missing b output m r st :
  locate_result e (unit_path e self m) = Ok r → (∀ u, r ≠ LocUnit u) →
  ∃ st2, migrate_one e self b output m st = (Raise TypeError, st2) ∧
         ledger st2 = ledger st ∧ db st2 = db st ∧
         last_migrations_ran st2 = last_migrations_ran st ++ [m].
Proof.
  intros Hm Hr. unfold migrate_one, pydoc_locate, report, line, instantiate.
  rewrite !bind_run. simpl. rewrite Hm.
  destruct r as [u| |]; [by destruct (Hr u)|..];
    destruct (command_class self); eexists; split_and!; reflexivity.
Qed.

(** An iteration of [migrate] on a file whose module fails while it is
    imported: [locate] raises before the name is appended. *)
Lemma migrate_one_import_fails b output m x st :
  locate_result e (unit_path e self m) = Raise x →
  ∃ st2, migrate_one e self b output m st = (Raise x, st2) ∧
         ledger st2 = ledger st ∧ db st2 = db st ∧
         last_migrations_ran st2 = last_migrations_ran st.
Proof.
  intros Hm. unfold migrate_one, pydoc_locate.
  rewrite !bind_run. simpl. rewrite Hm.
  eexists; split_and!; reflexivity.
Qed.

Lemma rollback_one_missing output m r st :
  locate_result e (unit_path e self m) = Ok r → (∀ u, r ≠ LocUnit u) →
  ∃ st2, rollback_one e self output m st = (Raise TypeError, st2) ∧
         ledger st2 = ledger st ∧ db st2 = db st.
Proof.
  intros Hm Hr. unfold rollback_one, locate, pydoc_locate, report, line, instantiate.
  rewrite !bind_run. destruct (command_class self); simpl; rewrite Hm.
  all: destruct r as [u| |]; [by destruct (Hr u)|..]; eexists; split_and!; reflexivity.
Qed.

Lemma reset_one_missing m r st :
  locate_result e (unit_path e self m) = Ok r → (∀ u, r ≠ LocUnit u) →
  ∃ st2, reset_one e self m st = (Raise TypeError, st2) ∧
         ledger st2 = ledger st ∧ db st2 = db st.
Proof.
  intros Hm Hr. unfold reset_one, locate, pydoc_locate, report, line, instantiate.
  rewrite !bind_run. destruct (command_class self); simpl; rewrite Hm.
  all: destruct r as [u| |]; [by destruct (Hr u)|..]; eexists; split_and!; reflexivity.
Qed.
End Missing.


(** ** The connection handed to the units *)

Lemma Forall2_concat_inv {A B} (P : A → list B → Prop) l evss ev :
  Forall2 P l evss → ev ∈ concat evss → ∃ x evs, x ∈ l ∧ P x evs ∧ ev ∈ evs.
Proof.
  induction 1 as [|x evs l evss Hx _ IH]; simpl.
  - intros H. by apply elem_of_nil in H.
  - rewrite elem_of_app. intros [Hin|Hin].
    + exists x, evs. split_and!; [by left | done..].
    + destruct (IH Hin) as (y & evs' & ? & ? & ?). exists y, evs'.
      split_and!; [by right | done..].
Qed.

Lemma elem_of_concat_fmap {A B} (f : A → list B) (l : list A) (y : B) :
  y ∈ concat (f <$> l) ↔ ∃ x, x ∈ l ∧ y ∈ f x.
Proof.
  induction l as [|a l IH]; csimpl.
  - split; [intros H; by apply elem_of_nil in H | intros (x & H & _); by apply elem_of_nil in H].
  - rewrite elem_of_app, IH. split.
    + intros [Hy|(x & Hx & Hy)]; [exists a | exists x]; split; try done; by constructor.
    + intros (x & [->|Hx]%elem_of_cons & Hy); [by left | right; eauto].
Qed.

Ltac case_in_list H :=
  repeat (apply elem_of_cons in H as [H|H]; [by simplify_eq|]);
  by apply elem_of_nil in H.

Section Connection.
Context {DB : Type} (e : env DB) (self : Migration).
Implicit Types (st : state DB) (m : string).

Lemma migrate_events_instantiate b output m schema m' c :
  EvInstantiate m' c ∈ migrate_events e self b output m schema →
  c = Some (connection self).
Proof.
  unfold migrate_events, report_events.
  destruct (command_class self), output; simpl; intros H; case_in_list H.
Qed.

Lemma rollback_events_instantiate output m schema m' c :
  EvInstantiate m' c ∈ rollback_events e self output m schema →
  c = Some (connection self).
Proof.
  unfold rollback_events, report_events.
  destruct (command_class self), output; simpl; intros H; case_in_list H.
Qed.

Lemma reset_events_instantiate m m' c :
  EvInstantiate m' c ∈ reset_events e self m → c = Some (connection self).
Proof.
  unfold reset_events, report_events.
  destruct (command_class self); simpl; intros H; case_in_list H.
Qed.

Lemma rollback_all_events_instantiate m m' c :
  EvInstantiate m' c ∈ rollback_all_events e self m → c = None.
Proof. unfold rollback_all_events. intros H. case_in_list H. Qed.

(** [migrate], [rollback] and [reset] build every unit with
    [connection=self.connection]. *)
Lemma migrate_passes_connection output st st' :
  migrate e self output st = (Ok (), st') →
  ∃ evs, trace st' = trace st ++ evs ∧
         ∀ m c, EvInstantiate m c ∈ evs → c = Some (connection self).
Proof.
  intros H. apply migrate_ok in H as (entries & evss & _ & HF & Ht & _).
  exists (concat evss). split; [done|]. intros m c Hin.
  destruct (Forall2_concat_inv _ _ _ _ HF Hin) as (x & evs & _ & (schema & _ & ->) & Hev).
  by eapply migrate_events_instantiate.
Qed.

Lemma rollback_passes_connection output st st' :
  rollback e self output st = (Ok (), st') →
  ∃ evs, trace st' = trace st ++ evs ∧
         ∀ m c, EvInstantiate m c ∈ evs → c = Some (connection self).
Proof.
  intros H. apply rollback_ok in H as (evss & HF & Ht & _).
  exists (concat evss). split; [done|]. intros m c Hin.
  destruct (Forall2_concat_inv _ _ _ _ HF Hin) as (x & evs & _ & (schema & ->) & Hev).
  by eapply rollback_events_instantiate.
Qed.

Lemma reset_passes_connection st st' :
  reset e self st = (Ok (), st') →
  ∃ evs, trace st' = trace st ++ evs ∧
         ∀ m c, EvInstantiate m c ∈ evs → c = Some (connection self).
Proof.
  intros H. apply reset_ok in H as (Ht & _).
  eexists. split; [exact Ht|]. intros m c.
  rewrite elem_of_app. intros [Hin|Hin].
  - apply elem_of_concat_fmap in Hin as (x & _ & Hin).
    by eapply reset_events_instantiate.
  - unfold report_events in Hin. destruct (command_class self); case_in_list Hin.
Qed.

(** [rollback_all] builds every unit without arguments. *)
Lemma rollback_all_passes_no_connection st st' :
  rollback_all e self st = (Ok (), st') →
  ∃ evs, trace st' = trace st ++ evs ∧
         (∀ m c, EvInstantiate m c ∈ evs → c = None) ∧
         ∀ m, m ∈ Ledger.pluck_migration (rows (ledger st)) →
              EvInstantiate m None ∈ evs.
Proof.
  intros H. apply rollback_all_ok in H as (Ht & _).
  eexists. split; [exact Ht|]. split.
  - intros m c. rewrite elem_of_app. intros [Hin|Hin].
    + apply elem_of_concat_fmap in Hin as (x & _ & Hin).
      by eapply rollback_all_events_instantiate.
    + case_in_list Hin.
  - intros m Hm. rewrite elem_of_app. left.
    apply elem_of_concat_fmap. exists m.
    split; [done | unfold rollback_all_events; in_list].
Qed.
End Connection.

(** ** The directory that is listed *)

(** Discovery reads the listing of [<cwd>/databases/migrations] and nothing
    else of the environment. *)
Lemma discovery_reads_default_directory {DB} (e e' : env DB) (st : state DB) :
  dirs e !! discovery_directory e = dirs e' !! discovery_directory e' →
  get_unran_migrations e st = get_unran_migrations e' st ∧
  get_ran_migrations e st = get_ran_migrations e' st.
Proof.
  intros H. split.
  - by rewrite !get_unran_migrations_run, H.
  - unfold get_ran_migrations, listdir. rewrite !bind_run.
    fold (discovery_directory e) (discovery_directory e'). by rewrite H.
Qed.

(** The runner's configuration plays no part in what [migrate] finds
    pending. *)
Lemma migrate_pending_ignores_configuration {DB} (e : env DB) self output st st' :
  migrate e self output st = (Ok (), st') →
  ∃ entries,
    dirs e !! PyStr.path_join (cwd e) "databases/migrations" = Some entries ∧
    last_migrations_ran st' =
      last_migrations_ran st ++ pending_of entries (ledger st).
Proof.
  intros H. apply migrate_ok in H as (entries & _ & Hd & _ & _ & _ & Hr). eauto.
Qed.

(** ** Runs that may abort *)

Section AnyOutcome.
Context {DB : Type} {A : Type}.
Implicit Types (st : state DB) (body : A → M DB ()).

(** A loop, completed or aborted, has gone through a prefix of its list;
    the iteration that aborts it either counts among them or leaves the
    calls [tail] behind. *)
Lemma for_each_any body (P : A → list event → Prop) (Q : list event → Prop)
    (ran : A → list string) :
  (∀ x st, ∃ evs, trace (body x st).2 = trace st ++ evs ∧
     ((P x evs ∧
       last_migrations_ran (body x st).2 = last_migrations_ran st ++ ran x) ∨
      ((body x st).1 ≠ Ok () ∧ Q evs ∧
       last_migrations_ran (body x st).2 = last_migrations_ran st))) →
  ∀ l st, ∃ k evss tail,
    k `prefix_of` l ∧ Forall2 P k evss ∧ (tail = [] ∨ Q tail) ∧
    trace (for_each l body st).2 = trace st ++ concat evss ++ tail ∧
    last_migrations_ran (for_each l body st).2 =
      last_migrations_ran st ++ concat (ran <$> k) ∧
    ((for_each l body st).1 = Ok () → k = l).
Proof.
  intros Hbody l. induction l as [|x l IH]; intros st.
  - exists [], [], []. simpl. rewrite !app_nil_r.
    split_and!; [done | constructor | by left | done..].
  - destruct (Hbody x st) as (evs & Ht & Hcase).
    simpl. rewrite bind_run.
    destruct (body x st) as [[[]|err] st1] eqn:Hx; simpl in *.
    + destruct Hcase as [[HP Hr]|[Hne _]]; [|done].
      destruct (IH st1) as (k & evss & tail & Hk & HF & Htail & Ht' & Hr' & Hok).
      exists (x :: k), (evs :: evss), tail. csimpl.
      rewrite Ht', Ht, Hr', Hr, <- !app_assoc. split_and!; try done.
      * by apply prefix_cons.
      * by constructor.
      * intros H. f_equal. auto.
    + destruct Hcase as [[HP Hr]|(_ & HQ & Hr)].
      * exists [x], [evs], []. csimpl. rewrite !app_nil_r.
        split_and!;
          first [done | apply prefix_cons, prefix_nil | by repeat constructor | by left].
      * exists [], [], evs. csimpl. rewrite ?app_nil_r.
        split_and!; first [done | apply prefix_nil | by right | constructor].
Qed.
End AnyOutcome.

Section MigrateAny.
Context {DB : Type} (e : env DB) (self : Migration).
Implicit Types (st : state DB) (m : string).

(** However an iteration of [migrate] ends, either the file was appended
    to [last_migrations_ran], once, and before any [up()], or [locate]
    raised and nothing else was called. *)
Lemma migrate_one_any b output m st :
  ∃ evs,
    trace (migrate_one e self b output m st).2 = trace st ++ evs ∧
    ((((∀ pre post m', evs = pre ++ EvUp m' :: post → EvAppendRan m' ∈ pre) ∧
       (∀ m', EvAppendRan m' ∈ evs ↔ m' = m)) ∧
      last_migrations_ran (migrate_one e self b output m st).2 =
        last_migrations_ran st ++ [m]) ∨
     ((migrate_one e self b output m st).1 ≠ Ok () ∧
      (∃ path, evs = [EvLocate path]) ∧
      last_migrations_ran (migrate_one e self b output m st).2 =
        last_migrations_ran st)).
Proof.
  unfold migrate_one, pydoc_locate, append_last_migrations_ran, report, line,
    instantiate, schema_dry_on, call_up, run_unit, blueprint_to_sql, model_create,
    emit, modify_ledger, raise, mbind, M_bind, mret, M_ret.
  destruct (locate_result e (unit_path e self m)) as [[u| |]|x]; simpl;
    [| | |eexists; split; [reflexivity|]; right; split_and!; [done | eauto | done]].
  all: destruct (command_class self), output; simpl.
  all: repeat match goal with
       | |- context [up ?u ?c ?d ?x] => destruct (up u c d x) as [[?|?] ?]; simpl
       | |- context [_blueprint ?s] => destruct (_blueprint s); simpl
       end.
  all: rewrite <- ?app_assoc; simpl.
  all: eexists; split; [reflexivity|]; left; split_and!; [ | | reflexivity].
  all: try (intros pre post m' H;
            do 10 (destruct pre as [|? pre]; simplify_eq/=; try by in_list)).
  all: intros m'; split;
    [ intros H; repeat (apply elem_of_cons in H as [H|H]; [by simplify_eq|]);
      by apply elem_of_nil in H
    | intros ->; in_list ].
Qed.

(** However [migrate] ends, it has appended the files it went through, a
    prefix of the pending ones, each before its [up()]. *)
Lemma migrate_any output st :
  ∃ processed evs,
    last_migrations_ran (migrate e self output st).2 =
      last_migrations_ran st ++ processed ∧
    trace (migrate e self output st).2 = trace st ++ evs ∧
    (∀ m, EvAppendRan m ∈ evs ↔ m ∈ processed) ∧
    append_before_up evs ∧
    ∀ pending, get_unran_migrations e st = (Ok pending, st) →
      processed `prefix_of` pending ∧
      ((migrate e self output st).1 = Ok () → processed = pending).
Proof.
  unfold migrate.
  rewrite bind_run, get_last_batch_number_run, bind_run, get_unran_migrations_run.
  destruct (dirs e !! discovery_directory e) as [entries|]; simpl.
  - set (b := Ledger.max_batch (rows (ledger st)) + 1).
    destruct (for_each_any (migrate_one e self b output)
                (λ m evs, append_before_up evs ∧ ∀ m', EvAppendRan m' ∈ evs ↔ m' = m)
                (λ evs, ∃ path, evs = [EvLocate path])
                (λ m, [m]) (migrate_one_any b output)
                (pending_of entries (ledger st)) st)
      as (k & evss & tail & Hk & HF & Htail & Ht & Hr & Hok).
    exists k, (concat evss ++ tail). rewrite concat_singletons in Hr.
    assert (Hno : ∀ ev, ev ∈ tail → ∃ path, ev = EvLocate path).
    { intros ev Hev. destruct Htail as [->|[path ->]].
      - by apply elem_of_nil in Hev.
      - apply list_elem_of_singleton in Hev. eauto. }
    split_and!; try done.
    + intros m. rewrite elem_of_app. split.
      * intros [Hin|Hin].
        -- destruct (Forall2_concat_inv _ _ _ _ HF Hin)
             as (x & evs & Hx & [_ Hevs] & Hev).
           apply Hevs in Hev. by subst.
        -- by destruct (Hno _ Hin).
      * intros Hin. left. eapply Forall2_concat_elem; [exact HF | exact Hin |].
        intros evs [_ Hevs]. by apply Hevs.
    + apply append_before_up_app.
      * eapply append_before_up_concat; [|exact HF]. by intros x evs [? _].
      * intros pre post m Heq.
        assert (Hin : EvUp m ∈ tail).
        { rewrite Heq. apply elem_of_app. right. apply list_elem_of_here. }
        by destruct (Hno _ Hin).
    + intros pending [= <-]. split; [done | exact Hok].
  - exists [], []. rewrite !app_nil_r. split_and!; try done.
    + intros m. split; intros H; by apply elem_of_nil in H.
    + intros [|? ?] ? ? ?; simplify_eq.
Qed.
End MigrateAny.

(** ** Unique names *)

(** [migrate] keeps the names of the ledger unique when the directory holds
    no name twice; [rollback] and [reset] only delete rows. *)
Lemma migrate_keeps_unique_names {DB} (e : env DB) self output st st' entries :
  dirs e !! discovery_directory e = Some entries →
  NoDup (d_name <$> entries) →
  unique_names (ledger st) →
  migrate e self output st = (Ok (), st') →
  unique_names (ledger st').
Proof.
  intros Hd Hnd Hu H.
  apply migrate_ok in H as (entries' & _ & Hd' & _ & _ & Hl & _).
  rewrite Hd in Hd'. simplify_eq. rewrite Hl.
  destruct (output && command_class self); [done|].
  unfold unique_names, Ledger.pluck_migration in *. simpl. rewrite fmap_app.
  change (migration <$> new_records ?i ?b ?ms) with
    (Ledger.pluck_migration (new_records i b ms)).
  rewrite pluck_new_records. apply NoDup_app. split_and!.
  - done.
  - intros m Hin Hp. apply pending_of_spec in Hp as [_ Hp]. by apply Hp.
  - apply NoDup_filter. rewrite merge_sort_Permutation.
    unfold candidate_files. by apply NoDup_fmap_filter.
Qed.

Lemma rollback_keeps_unique_names {DB} (e : env DB) self output st st' :
  unique_names (ledger st) →
  rollback e self output st = (Ok (), st') →
  unique_names (ledger st').
Proof.
  intros Hu H. apply rollback_ok in H as (_ & _ & _ & Hl & _). rewrite Hl.
  destruct (output && command_class self); [done|].
  by apply NoDup_fmap_filter.
Qed.

(** ** Construction *)

(** No call of [Migration.__init__] returns a runner. *)
Lemma Migration_init_raises config_database conn dry cmd directory :
  Migration_init config_database conn dry cmd directory =
  Raise (if config_database then NameError else ImportError).
Proof. unfold Migration_init. by destruct config_database. Qed.

(** ** The files a run of [migrate] has gone through *)

Lemma migrate_done_prefix {DB} (e : env DB) self b output done (st st1 : state DB) :
  for_each done (migrate_one e self b output) st = (Ok (), st1) →
  last_migrations_ran st1 = last_migrations_ran st ++ done ∧
  (output && command_class self = false →
   Ledger.pluck_migration (rows (ledger st1)) =
     Ledger.pluck_migration (rows (ledger st)) ++ done).
Proof.
  intros Hdone.
  eapply (for_each_ok _ (λ _ _, True)
    (λ m t, if output && command_class self then t else Ledger.create m b t)
    (λ m, [m])) in Hdone as (_ & _ & _ & Hl1 & Hr1).
  2:{ intros x s s' Hx. apply migrate_one_ok in Hx as (? & ? & _ & _ & _ & Ht & Hl' & Hr').
      eauto 10. }
  rewrite concat_singletons in Hr1. split; [done|].
  intros Hmode. rewrite Hl1, Hmode, foldl_create. simpl.
  unfold Ledger.pluck_migration. rewrite fmap_app. f_equal. apply pluck_new_records.
Qed.

(** * The properties of the specification *)

Section Specification.
Context {DB : Type}.
Implicit Types (e : env DB) (self : Migration) (st : state DB).

(** C1 (amended).  Whether a preview run ([output=True]) writes the ledger
  depends on the console command.  With a console command configured, every
  iteration of a completed [migrate(output=True)] ends with the rendering of
  the SQL of the file and skips the rest: no [create] is issued and the
  ledger is left as it was; likewise every iteration of a completed
  [rollback(output=True)] ends with the rendering and issues no [delete].
  Without a console command, every iteration of a completed
  [migrate(output=True)] prints the SQL and records the file under the next
  batch number, and every iteration of a completed [rollback(output=True)]
  prints the SQL and deletes the name.  Each of the two methods is taken on
  its own. *)
Theorem preview_writes_ledger_only_without_console e self st :
let next_batch := Ledger.max_batch (rows (ledger st)) + 1 in
let conn := Some (connection self) in
(∀ st_m, migrate e self true st = (Ok (), st_m) →
   ∃ pending evss,
     get_unran_migrations e st = (Ok pending, st) ∧
     trace st_m = trace st ++ concat evss ∧
     Forall2 (λ m evs, ∃ text,
                evs =
                  if command_class self then
                    [EvLocate (unit_path e self m); EvAppendRan m; EvLine (Migrating m);
                     EvInstantiate m conn; EvSchemaDry m; EvUp m;
                     EvTableRender ["SQL"] [[text]]]
                  else
                    [EvLocate (unit_path e self m); EvAppendRan m;
                     EvInstantiate m conn; EvSchemaDry m; EvUp m;
                     EvPrint text; EvCreate m next_batch])
             pending evss ∧
     ups_on e self conn true pending (db st) = Some (db st_m) ∧
     ledger st_m =
       (if command_class self then ledger st
        else {| rows := rows (ledger st) ++
                        new_records (next_id (ledger st)) next_batch pending;
                next_id := next_id (ledger st) + Z.of_nat (length pending) |})) ∧
(∀ st_r, rollback e self true st = (Ok (), st_r) →
   ∃ evss,
     trace st_r = trace st ++ concat evss ∧
     Forall2 (λ m evs, ∃ schema text,
                evs =
                  if command_class self then
                    [EvLine (RollingBack m); EvLocate (unit_path e self m);
                     EvInstantiate m conn; EvSchemaDry m; EvDown m;
                     EvTableRender ["SQL"] (rollback_rows schema)]
                  else
                    [EvLocate (unit_path e self m);
                     EvInstantiate m conn; EvSchemaDry m; EvDown m;
                     EvPrint text; EvDelete m])
             (rollback_names (ledger st)) evss ∧
     downs_on e self conn true (rollback_names (ledger st)) (db st) = Some (db st_r) ∧
     ledger st_r =
       (if command_class self then ledger st
        else {| rows := filter (λ r, migration r ∉ rollback_names (ledger st))
                               (rows (ledger st));
                next_id := next_id (ledger st) |})).
Proof.
intros next_batch conn. split.
- intros st_m Hm.
  pose proof (λ pending Hp, migrate_db e self true st st_m pending Hp Hm) as Hdb.
  apply migrate_ok in Hm as (entries & evss & Hd & HF & Ht & Hl & _).
  exists (pending_of entries (ledger st)), evss.
  rewrite get_unran_migrations_run, Hd in Hdb |- *.
  split_and!; try done; [|by apply Hdb].
  eapply Forall2_impl; [exact HF|].
  intros m evs (schema & Hb & ->).
  destruct (Hb eq_refl) as [text Htext]. exists text.
  unfold migrate_events, report_events. rewrite Htext.
  by destruct (command_class self).
- intros st_r Hr.
  pose proof (rollback_db e self true st st_r Hr) as Hdb.
  apply rollback_ok in Hr as (evss & HF & Ht & Hl & _).
  exists evss. split_and!; try done.
  eapply Forall2_impl; [exact HF|].
  intros m evs (schema & ->).
  exists schema, (default "" (_blueprint schema)).
  unfold rollback_events, report_events.
  by destruct (command_class self).
Qed.

(** C2.  The records a completed [migrate] inserts all carry one batch
  number, the maximum batch of the ledger before the call plus one; it is
  above every batch recorded before, and it is 1 on an empty ledger. *)
Theorem migrate_records_share_next_batch e self output st st' :
migrate e self output st = (Ok (), st') →
let b := Ledger.max_batch (rows (ledger st)) + 1 in
∃ pending new,
  get_unran_migrations e st = (Ok pending, st) ∧
  rows (ledger st') = rows (ledger st) ++ new ∧
  Ledger.pluck_migration new = (if output && command_class self then [] else pending) ∧
  Forall (λ r, batch r = b) new ∧
  (∀ r, r ∈ rows (ledger st) → batch r < b) ∧
  (rows (ledger st) = [] → b = 1).
Proof.
intros H b. apply migrate_ok in H as (entries & evss & Hd & _ & _ & Hl & _).
rewrite get_unran_migrations_run, Hd.
exists (pending_of entries (ledger st)).
exists (if output && command_class self then []
        else new_records (next_id (ledger st)) b (pending_of entries (ledger st))).
split; [done|]. rewrite Hl. split_and!.
- destruct (output && command_class self); simpl; [by rewrite app_nil_r | done].
- destruct (output && command_class self); [done | apply pluck_new_records].
- destruct (output && command_class self); [constructor | apply batch_new_records].
- intros r Hr. apply max_batch_ge in Hr. unfold b. lia.
- intros Hrows. unfold b. by rewrite Hrows.
Qed.

(** C3 (amended).  Whatever the directory and the ledger hold, the list
  [get_unran_migrations] returns holds exactly the entries of the listed
  directory that are files, other than [__init__.py], and whose name is not
  in the ledger; it is in ascending order of the file names, and the call
  changes nothing.  A completed [migrate] leaves nothing pending unless it
  was a preview run rendered through a console command. *)
Theorem pending_is_discovery_minus_ledger e st st1 pending :
get_unran_migrations e st = (Ok pending, st1) →
st1 = st ∧
(∃ entries,
   dirs e !! discovery_directory e = Some entries ∧
   ∀ m, m ∈ pending ↔
        (∃ d, d ∈ entries ∧ d_name d = m ∧ d_isfile d = true ∧ m ≠ "__init__.py") ∧
        m ∉ Ledger.pluck_migration (rows (ledger st))) ∧
StronglySorted String.le pending ∧
(∀ self output st',
   migrate e self output st = (Ok (), st') →
   output = false ∨ command_class self = false →
   get_unran_migrations e st' = (Ok [], st')).
Proof.
intros Hp.
rewrite get_unran_migrations_run in Hp.
destruct (dirs e !! discovery_directory e) as [entries|] eqn:Hd; [|done].
simplify_eq. split_and!.
- done.
- exists entries. split; [done|]. intros m.
  by rewrite pending_of_spec, candidate_files_spec.
- apply pending_of_sorted.
- intros self output st' Hm Hmode.
  apply migrate_ok in Hm as (entries' & _ & Hd' & _ & _ & Hl & _).
  rewrite Hd in Hd'. simplify_eq.
  rewrite get_unran_migrations_run, Hd. do 2 f_equal.
  replace (output && command_class self) with false in Hl
    by (destruct Hmode as [-> | ->]; [done | by rewrite andb_false_r]).
  apply list_filter_none. intros m Hin Hnot. apply Hnot. clear Hnot.
  unfold Ledger.all, Ledger.pluck_migration. rewrite Hl. simpl.
  rewrite fmap_app, elem_of_app.
  destruct (decide (m ∈ migration <$> rows (ledger st1))) as [|Hout]; [by left|].
  right. change (m ∈ Ledger.pluck_migration (new_records (next_id (ledger st1))
    (Ledger.max_batch (rows (ledger st1)) + 1) (pending_of entries' (ledger st1)))).
  rewrite pluck_new_records. apply list_elem_of_filter. done.
Qed.

(** C4 (amended).  A completed [rollback()] goes through the names of the
  rows of maximum batch in descending order of [migration_id]; it runs the
  [down()] of each unit against the database and then deletes by name, so
  every row that carries one of these names is removed, of whatever batch,
  and no row of the maximum batch is left.  On a ledger whose names are
  unique the rows left are exactly the rows of the other batches, unchanged
  and in their order, and a second completed [rollback()] then removes the
  rows of the batch that was the second largest. *)
Theorem rollback_removes_latest_batch_names e self st st1 :
rollback e self false st = (Ok (), st1) →
let b := Ledger.max_batch (rows (ledger st)) in
let names := rollback_names (ledger st) in
(∃ sorted evss,
   names = Ledger.pluck_migration sorted ∧
   sorted ≡ₚ filter (λ r, batch r = b) (rows (ledger st)) ∧
   StronglySorted Ledger.id_ge sorted ∧
   Forall2 (λ m evs, ∃ schema, evs = rollback_events e self false m schema)
           names evss ∧
   trace st1 = trace st ++ concat evss) ∧
downs_on e self (Some (connection self)) false names (db st) = Some (db st1) ∧
rows (ledger st1) = filter (λ r, migration r ∉ names) (rows (ledger st)) ∧
next_id (ledger st1) = next_id (ledger st) ∧
(∀ r, r ∈ rows (ledger st1) → batch r ≠ b) ∧
(unique_names (ledger st) →
   let b2 := Ledger.max_batch (rows (ledger st1)) in
   rows (ledger st1) = filter (λ r, batch r ≠ b) (rows (ledger st)) ∧
   (∀ m, m ∈ rollback_names (ledger st1) ↔
         ∃ r, r ∈ rows (ledger st) ∧ migration r = m ∧ batch r = b2 ∧ batch r ≠ b) ∧
   (rows (ledger st1) ≠ [] →
      b2 < b ∧
      (∃ r, r ∈ rows (ledger st) ∧ batch r = b2) ∧
      ∀ r, r ∈ rows (ledger st) → batch r < b → batch r ≤ b2) ∧
   ∀ st2, rollback e self false st1 = (Ok (), st2) →
          rows (ledger st2) =
            filter (λ r, batch r ≠ b ∧ batch r ≠ b2) (rows (ledger st))).
Proof.
intros H1 b names.
pose proof (rollback_db _ _ _ _ _ H1) as Hdb.
apply rollback_ok in H1 as (evss & HF & Ht & Hl & _). simpl in Hl.
split_and!.
- exists (Ledger.order_by_migration_id_desc (Ledger.where_batch b (rows (ledger st)))), evss.
  split_and!; try done.
  + apply order_by_desc_perm.
  + apply order_by_desc_sorted.
- done.
- by rewrite Hl.
- by rewrite Hl.
- intros r Hr Hb. rewrite Hl in Hr. simpl in Hr.
  apply list_elem_of_filter in Hr as [Hn Hr]. apply Hn.
  apply rollback_names_spec. eauto.
- intros Hu b2.
  assert (Hrows : rows (ledger st1) = filter (λ r, batch r ≠ b) (rows (ledger st))).
  { rewrite Hl. simpl. by apply delete_latest_names. }
  assert (Hu1 : unique_names (ledger st1)).
  { unfold unique_names, Ledger.pluck_migration. rewrite Hrows. by apply NoDup_fmap_filter. }
  split_and!.
  + done.
  + intros m. rewrite rollback_names_spec. fold b2. split.
    * intros (r & Hr & Hm & Hb). rewrite Hrows in Hr.
      apply list_elem_of_filter in Hr as [Hne Hr]. eauto.
    * intros (r & Hr & Hm & Hb & Hne). exists r. split_and!; try done.
      rewrite Hrows. by apply list_elem_of_filter.
  + intros Hne. destruct (max_batch_elem _ Hne) as (r & Hr & Hb). fold b2 in Hb.
    pose proof Hr as Hr0. rewrite Hrows in Hr0.
    apply list_elem_of_filter in Hr0 as [Hrb Hr0].
    pose proof (max_batch_ge _ _ Hr0) as Hle. fold b in Hle.
    split_and!.
    * lia.
    * eauto.
    * intros r' Hr' Hlt. apply max_batch_ge. rewrite Hrows.
      apply list_elem_of_filter. split; [lia | done].
  + intros st2 H2.
    apply rollback_ok in H2 as (_ & _ & _ & Hl2 & _). simpl in Hl2.
    rewrite Hl2. simpl. rewrite (delete_latest_names _ Hu1). fold b2.
    rewrite Hrows, list_filter_filter. apply list_filter_iff. intros r. tauto.
Qed.


(** C8.  A completed [reset()] goes through the names of all rows of the
  ledger in descending order of [migration_id]; for each it locates the
  unit, builds it on the runner's connection, calls [down()], deletes the
  name, and deletes it once more through [delete_migrations].  The database
  afterwards is the one the [down()] of these units leave, run in that
  order, and the ledger is empty. *)
Theorem reset_reverts_newest_first e self st st' :
reset e self st = (Ok (), st') →
∃ sorted,
  sorted ≡ₚ rows (ledger st) ∧
  StronglySorted Ledger.id_ge sorted ∧
  trace st' = trace st ++
              concat (reset_events e self <$> Ledger.pluck_migration sorted) ++
              report_events self EmptyLine ∧
  downs_on e self (Some (connection self)) false (Ledger.pluck_migration sorted) (db st)
    = Some (db st') ∧
  rows (ledger st') = [].
Proof.
intros H. pose proof (reset_db _ _ _ _ H) as Hdb.
apply reset_ok in H as (Ht & Hl & _).
exists (Ledger.order_by_migration_id_desc (rows (ledger st))).
split_and!.
- apply order_by_desc_perm.
- apply order_by_desc_sorted.
- exact Ht.
- exact Hdb.
- by rewrite Hl.
Qed.

(** C9.  [refresh()] is [reset()] followed by [migrate()].  When it
  completes, the ledger holds the discovered files, each at batch 1: the
  same names as after a completed [migrate()] that started from an empty
  ledger. *)
Theorem refresh_matches_migrate_from_empty e self st st' st0 st0' :
refresh e self st = (Ok (), st') →
rows (ledger st0) = [] →
migrate e self false st0 = (Ok (), st0') →
refresh e self = (reset e self ≫= λ _, migrate e self false) ∧
(∃ entries,
   dirs e !! discovery_directory e = Some entries ∧
   Ledger.pluck_migration (rows (ledger st')) =
     merge_sort String.le (candidate_files entries)) ∧
Ledger.pluck_migration (rows (ledger st')) = Ledger.pluck_migration (rows (ledger st0')) ∧
Forall (λ r, batch r = 1) (rows (ledger st')).
Proof.
intros Hrefresh Hempty Hmig. split; [reflexivity|].
unfold refresh in Hrefresh.
apply bind_ok in Hrefresh as ([] & st1 & Hreset & Hmig1).
apply reset_ok in Hreset as (_ & Hl1 & _).
apply migrate_ok in Hmig1 as (entries & _ & Hd & _ & _ & Hl & _).
apply migrate_ok in Hmig as (entries0 & _ & Hd0 & _ & _ & Hl0 & _).
rewrite Hd in Hd0. simplify_eq. simpl in Hl, Hl0.
rewrite Hl, Hl0, Hempty, Hl1. simpl.
rewrite !pending_of_empty by (done || by rewrite ?Hl1).
split_and!.
- exists entries0. by rewrite pluck_new_records.
- by rewrite !pluck_new_records.
- apply batch_new_records.
Qed.

(** C10.  [last_migrations_ran] is empty in a fresh runner.  However a call
  of [migrate] ends, in preview mode or not, it has appended to the list
  the files it went through, a prefix of the pending ones and all of them
  when it completes, each before the [up()] of its unit.  No operation
  removes an entry: over any sequence of operations on a runner the list
  only grows at its end. *)
Theorem last_migrations_ran_only_grows e self output st :
(∀ (d : DB) t, last_migrations_ran (init_state d t) = []) ∧
(∃ processed evs,
   last_migrations_ran (migrate e self output st).2 =
     last_migrations_ran st ++ processed ∧
   trace (migrate e self output st).2 = trace st ++ evs ∧
   (∀ m, EvAppendRan m ∈ evs ↔ m ∈ processed) ∧
   (∀ pre post m, evs = pre ++ EvUp m :: post → EvAppendRan m ∈ pre) ∧
   (∀ pending, get_unran_migrations e st = (Ok pending, st) →
      processed `prefix_of` pending ∧
      ((migrate e self output st).1 = Ok () → processed = pending))) ∧
(∀ ops s,
   last_migrations_ran s `prefix_of` last_migrations_ran (run_session e self ops s)).
Proof.
split_and!.
- done.
- apply migrate_any.
- intros ops s. apply run_session_grows.
Qed.
End Specification.

(** ** The properties on the demo project *)

(** C1 (as stated, refuted).  With a console command configured,
    [migrate(output=True)] completes on two pending files and records
    neither, and [rollback(output=True)] completes on a latest batch of one
    name and deletes nothing. *)
Lemma preview_with_console_skips_ledger :
  get_unran_migrations Demo.project Demo.fresh =
    (Ok [Demo.users; Demo.articles], Demo.fresh) ∧
  (migrate Demo.project Demo.console true Demo.fresh).1 = Ok () ∧
  ledger (migrate Demo.project Demo.console true Demo.fresh).2 = ledger Demo.fresh ∧
  (∀ b, EvCreate Demo.users b ∉ trace (migrate Demo.project Demo.console true Demo.fresh).2) ∧
  rollback_names (ledger Demo.users_done) = [Demo.users] ∧
  (rollback Demo.project Demo.console true Demo.users_done).1 = Ok () ∧
  ledger (rollback Demo.project Demo.console true Demo.users_done).2 =
    ledger Demo.users_done ∧
  EvDelete Demo.users ∉ trace (rollback Demo.project Demo.console true Demo.users_done).2.
Proof.
  split_and!; try (vm_compute; reflexivity).
  - intros b.
    set (t := trace (migrate Demo.project Demo.console true Demo.fresh).2).
    vm_compute in t. subst t. not_in_list.
  - set (t := trace (rollback Demo.project Demo.console true Demo.users_done).2).
    vm_compute in t. subst t. not_in_list.
Qed.

Lemma preview_writes_ledger_only_without_console_witness :
  migrate Demo.project Demo.quiet true Demo.users_done = (Ok (), Demo.previewed_migrate) ∧
  rollback Demo.project Demo.quiet true Demo.users_done = (Ok (), Demo.previewed_rollback) ∧
  (∃ pending,
     get_unran_migrations Demo.project Demo.users_done = (Ok pending, Demo.users_done) ∧
     ledger Demo.previewed_migrate =
       {| rows := rows (ledger Demo.users_done) ++
                  new_records (next_id (ledger Demo.users_done))
                    (Ledger.max_batch (rows (ledger Demo.users_done)) + 1) pending;
          next_id := next_id (ledger Demo.users_done) + Z.of_nat (length pending) |}) ∧
  ledger Demo.previewed_rollback =
    {| rows := filter (λ r, migration r ∉ rollback_names (ledger Demo.users_done))
                      (rows (ledger Demo.users_done));
       next_id := next_id (ledger Demo.users_done) |} ∧
  (rollback DemoMore.raw_project Demo.quiet true Demo.users_done).1
    = Raise AttributeError ∧
  (migrate DemoMore.raw_project Demo.console true Demo.fresh).1 = Ok () ∧
  ledger (migrate DemoMore.raw_project Demo.console true Demo.fresh).2 = ledger Demo.fresh.
Proof.
  assert (Hm : migrate Demo.project Demo.quiet true Demo.users_done
               = (Ok (), Demo.previewed_migrate)) by (vm_compute; reflexivity).
  assert (Hraw : migrate DemoMore.raw_project Demo.console true Demo.fresh
                 = (Ok (), (migrate DemoMore.raw_project Demo.console true Demo.fresh).2))
    by (vm_compute; reflexivity).
  assert (Hr : rollback Demo.project Demo.quiet true Demo.users_done
               = (Ok (), Demo.previewed_rollback)) by (vm_compute; reflexivity).
  split; [exact Hm|]. split; [exact Hr|].
  destruct (preview_writes_ledger_only_without_console
              Demo.project Demo.quiet Demo.users_done) as [Hmig Hroll].
  destruct (preview_writes_ledger_only_without_console
              DemoMore.raw_project Demo.console Demo.fresh) as [Hmig' _].
  split_and!.
  - destruct (Hmig _ Hm) as (pending & evss & Hp & _ & _ & _ & Hl).
    exists pending. split; [exact Hp | exact Hl].
  - destruct (Hroll _ Hr) as (evss & _ & _ & _ & Hl). exact Hl.
  - vm_compute. reflexivity.
  - vm_compute. reflexivity.
  - destruct (Hmig' _ Hraw) as (pending & evss & _ & _ & _ & _ & Hl). exact Hl.
Defined.

Lemma migrate_records_share_next_batch_witness :
  migrate Demo.project Demo.quiet false Demo.users_done = (Ok (), Demo.second_run) ∧
  ∃ pending new,
    get_unran_migrations Demo.project Demo.users_done = (Ok pending, Demo.users_done) ∧
    rows (ledger Demo.second_run) = rows (ledger Demo.users_done) ++ new ∧
    Ledger.pluck_migration new = pending ∧
    Forall (λ r, batch r = Ledger.max_batch (rows (ledger Demo.users_done)) + 1) new ∧
    (∀ r, r ∈ rows (ledger Demo.users_done) →
          batch r < Ledger.max_batch (rows (ledger Demo.users_done)) + 1) ∧
    (rows (ledger Demo.users_done) = [] →
     Ledger.max_batch (rows (ledger Demo.users_done)) + 1 = 1).
Proof.
  assert (Hm : migrate Demo.project Demo.quiet false Demo.users_done
               = (Ok (), Demo.second_run)) by (vm_compute; reflexivity).
  split; [exact Hm|].
  exact (migrate_records_share_next_batch
           Demo.project Demo.quiet false Demo.users_done _ Hm).
Defined.

(** C3 (as stated, refuted).  A preview run rendered through a console
    command completes and leaves both files pending. *)
Lemma preview_with_console_leaves_pending :
  (migrate Demo.project Demo.console true Demo.fresh).1 = Ok () ∧
  get_unran_migrations Demo.project (migrate Demo.project Demo.console true Demo.fresh).2 =
    (Ok [Demo.users; Demo.articles], (migrate Demo.project Demo.console true Demo.fresh).2).
Proof. split; vm_compute; reflexivity. Qed.

Lemma pending_is_discovery_minus_ledger_witness :
  get_unran_migrations Demo.project Demo.users_done = (Ok [Demo.articles], Demo.users_done) ∧
  migrate Demo.project Demo.quiet false Demo.users_done = (Ok (), Demo.second_run) ∧
  StronglySorted String.le [Demo.articles] ∧
  get_unran_migrations Demo.project Demo.second_run = (Ok [], Demo.second_run).
Proof.
  assert (Hp : get_unran_migrations Demo.project Demo.users_done
               = (Ok [Demo.articles], Demo.users_done)) by (vm_compute; reflexivity).
  assert (Hm : migrate Demo.project Demo.quiet false Demo.users_done
               = (Ok (), Demo.second_run)) by (vm_compute; reflexivity).
  split; [exact Hp|]. split; [exact Hm|].
  destruct (pending_is_discovery_minus_ledger Demo.project Demo.users_done _ _ Hp)
    as (_ & _ & Hs & Hafter).
  split; [exact Hs|].
  exact (Hafter Demo.quiet false _ Hm (or_introl eq_refl)).
Defined.

(** C4 (as stated, refuted).  On a ledger that records [users] in batch 1
    and again in batch 2, a completed [rollback()] reverts the one name of
    batch 2 and removes both rows: the row of batch 1 is removed as well. *)
Lemma rollback_removes_row_of_earlier_batch :
  rollback Demo.project Demo.quiet false DemoMore.users_twice
    = (Ok (), DemoMore.users_twice_rolled_back) ∧
  Ledger.max_batch (rows (ledger DemoMore.users_twice)) = 2 ∧
  rollback_names (ledger DemoMore.users_twice) = [Demo.users] ∧
  {| migration_id := 1; migration := Demo.users; batch := 1 |}
    ∈ rows (ledger DemoMore.users_twice) ∧
  rows (ledger DemoMore.users_twice_rolled_back) = [] ∧
  rows (ledger DemoMore.users_twice_rolled_back) ≠
    filter (λ r, batch r ≠ 2) (rows (ledger DemoMore.users_twice)).
Proof.
  split_and!; try (vm_compute; reflexivity).
  - apply list_elem_of_here.
  - vm_compute. discriminate.
Qed.

Lemma rollback_removes_latest_batch_names_witness :
  rollback Demo.project Demo.quiet false Demo.both_done = (Ok (), Demo.rolled_back_once) ∧
  unique_names (ledger Demo.both_done) ∧
  rollback Demo.project Demo.quiet false Demo.rolled_back_once
    = (Ok (), Demo.rolled_back_twice) ∧
  downs_on Demo.project Demo.quiet (Some (connection Demo.quiet)) false
    (rollback_names (ledger Demo.both_done)) (db Demo.both_done)
    = Some (db Demo.rolled_back_once) ∧
  rows (ledger Demo.rolled_back_once) =
    filter (λ r, batch r ≠ Ledger.max_batch (rows (ledger Demo.both_done)))
           (rows (ledger Demo.both_done)) ∧
  rows (ledger Demo.rolled_back_twice) =
    filter (λ r, batch r ≠ Ledger.max_batch (rows (ledger Demo.both_done)) ∧
                 batch r ≠ Ledger.max_batch (rows (ledger Demo.rolled_back_once)))
           (rows (ledger Demo.both_done)).
Proof.
  assert (Hu : unique_names (ledger Demo.both_done)).
  { apply (bool_decide_unpack _). vm_compute. exact I. }
  assert (H1 : rollback Demo.project Demo.quiet false Demo.both_done
               = (Ok (), Demo.rolled_back_once)) by (vm_compute; reflexivity).
  assert (H2 : rollback Demo.project Demo.quiet false Demo.rolled_back_once
               = (Ok (), Demo.rolled_back_twice)) by (vm_compute; reflexivity).
  split; [exact H1|]. split; [exact Hu|]. split; [exact H2|].
  destruct (rollback_removes_latest_batch_names Demo.project Demo.quiet Demo.both_done _ H1)
    as (_ & Hdb & _ & _ & _ & Hunique).
  destruct (Hunique Hu) as (Hrows & _ & _ & Hsecond).
  split; [exact Hdb|]. split; [exact Hrows|].
  exact (Hsecond _ H2).
Defined.



(** C6 (the code departs from the specification).  A completed
    [rollback_all] builds the unit of every name of the ledger without a
    connection argument, and the database it leaves is the one the
    [down()] of units built that way leave; [reset] and [rollback], started
    from the same state, build every unit with the runner's connection. *)
Theorem rollback_all_builds_units_without_connection {DB} (e : env DB) self
    (st st' : state DB) :
  rollback_all e self st = (Ok (), st') →
  let names := Ledger.pluck_migration (rows (ledger st)) in
  (∃ evs, trace st' = trace st ++ evs ∧
          (∀ m c, EvInstantiate m c ∈ evs → c = None) ∧
          ∀ m, m ∈ names → EvInstantiate m None ∈ evs) ∧
  downs_on e self None false names (db st) = Some (db st') ∧
  (∀ st2, reset e self st = (Ok (), st2) →
     downs_on e self (Some (connection self)) false (reverse_names (ledger st)) (db st)
       = Some (db st2) ∧
     ∃ evs, trace st2 = trace st ++ evs ∧
            ∀ m c, EvInstantiate m c ∈ evs → c = Some (connection self)) ∧
  (∀ st2, rollback e self false st = (Ok (), st2) →
     downs_on e self (Some (connection self)) false (rollback_names (ledger st)) (db st)
       = Some (db st2) ∧
     ∃ evs, trace st2 = trace st ++ evs ∧
            ∀ m c, EvInstantiate m c ∈ evs → c = Some (connection self)).
Proof.
  intros H names. split_and!.
  - exact (rollback_all_passes_no_connection e self st st' H).
  - exact (rollback_all_db e self st st' H).
  - intros st2 H2. split.
    + exact (reset_db e self st st2 H2).
    + exact (reset_passes_connection e self st st2 H2).
  - intros st2 H2. split.
    + exact (rollback_db e self false st st2 H2).
    + exact (rollback_passes_connection e self false st st2 H2).
Qed.

Lemma rollback_all_builds_units_without_connection_witness :
  connection Demo.on_sqlite = "sqlite" ∧
  rollback_all DemoMore.bound_project Demo.on_sqlite DemoMore.users_on_sqlite
    = (Ok (), (rollback_all DemoMore.bound_project Demo.on_sqlite
                 DemoMore.users_on_sqlite).2) ∧
  db (rollback_all DemoMore.bound_project Demo.on_sqlite DemoMore.users_on_sqlite).2
    = ["CREATE TABLE users ON sqlite"; "DROP TABLE users ON default"] ∧
  db (reset DemoMore.bound_project Demo.on_sqlite DemoMore.users_on_sqlite).2
    = ["CREATE TABLE users ON sqlite"; "DROP TABLE users ON sqlite"] ∧
  downs_on DemoMore.bound_project Demo.on_sqlite None false
    (Ledger.pluck_migration (rows (ledger DemoMore.users_on_sqlite)))
    (db DemoMore.users_on_sqlite)
    = Some (db (rollback_all DemoMore.bound_project Demo.on_sqlite
                  DemoMore.users_on_sqlite).2).
Proof.
  assert (H : rollback_all DemoMore.bound_project Demo.on_sqlite DemoMore.users_on_sqlite
              = (Ok (), (rollback_all DemoMore.bound_project Demo.on_sqlite
                           DemoMore.users_on_sqlite).2)) by (vm_compute; reflexivity).
  split; [reflexivity|]. split; [exact H|].
  split; [vm_compute; reflexivity|]. split; [vm_compute; reflexivity|].
  destruct (rollback_all_builds_units_without_connection
              DemoMore.bound_project Demo.on_sqlite DemoMore.users_on_sqlite _ H)
    as (_ & Hdb & _).
  exact Hdb.
Defined.

(** C7 (the code departs from the specification).  What the runner finds
    depends on the listing of [databases/migrations] under the working
    directory and on nothing else of the file system: two environments
    that agree on this listing yield the same pending and the same ran
    files, whatever the directory the runner is configured on holds, and
    a completed [migrate] of any runner has gone through the pending files
    of this listing. *)
Theorem discovery_lists_the_default_directory {DB} (e e' : env DB) (st : state DB) :
  dirs e !! PyStr.path_join (cwd e) "databases/migrations" =
    dirs e' !! PyStr.path_join (cwd e') "databases/migrations" →
  get_unran_migrations e st = get_unran_migrations e' st ∧
  get_ran_migrations e st = get_ran_migrations e' st ∧
  ∀ self output st',
    migrate e self output st = (Ok (), st') →
    ∃ entries,
      dirs e' !! PyStr.path_join (cwd e') "databases/migrations" = Some entries ∧
      last_migrations_ran st' = last_migrations_ran st ++ pending_of entries (ledger st).
Proof.
  intros H.
  destruct (discovery_reads_default_directory e e' st H) as [Hu Hr].
  split_and!; [exact Hu | exact Hr |].
  intros self output st' Hm. rewrite <- H.
  by eapply migrate_pending_ignores_configuration.
Qed.

Lemma discovery_lists_the_default_directory_witness :
  migration_directory Demo.in_db_migs = "db.migs" ∧
  dirs Demo.project !! "/app/db/migs" = Some [Demo.file Demo.tags] ∧
  dirs DemoMore.emptied_project !! "/app/db/migs" = Some [] ∧
  get_unran_migrations Demo.project Demo.fresh =
    (Ok [Demo.users; Demo.articles], Demo.fresh) ∧
  get_unran_migrations Demo.project Demo.fresh =
    get_unran_migrations DemoMore.emptied_project Demo.fresh ∧
  (migrate Demo.project Demo.in_db_migs false Demo.fresh).1 = Raise TypeError ∧
  trace (migrate Demo.project Demo.in_db_migs false Demo.fresh).2 =
    [EvLocate "db.migs.2018_01_09_043202_create_users_table.CreateUsersTable";
     EvAppendRan Demo.users].
Proof.
  assert (H : dirs Demo.project !! PyStr.path_join (cwd Demo.project) "databases/migrations" =
              dirs DemoMore.emptied_project
                !! PyStr.path_join (cwd DemoMore.emptied_project) "databases/migrations")
    by (vm_compute; reflexivity).
  pose proof (proj1 (discovery_lists_the_default_directory
                       Demo.project DemoMore.emptied_project Demo.fresh H)) as Hsame.
  split; [reflexivity|]. split; [vm_compute; reflexivity|].
  split; [vm_compute; reflexivity|]. split; [vm_compute; reflexivity|].
  split; [exact Hsame|]. split; vm_compute; reflexivity.
Defined.

Lemma reset_reverts_newest_first_witness :
  reset Demo.project Demo.quiet Demo.both_done = (Ok (), Demo.after_reset) ∧
  ∃ sorted,
    sorted ≡ₚ rows (ledger Demo.both_done) ∧
    StronglySorted Ledger.id_ge sorted ∧
    trace Demo.after_reset =
      trace Demo.both_done ++
      concat (reset_events Demo.project Demo.quiet <$> Ledger.pluck_migration sorted) ++
      report_events Demo.quiet EmptyLine ∧
    downs_on Demo.project Demo.quiet (Some (connection Demo.quiet)) false
      (Ledger.pluck_migration sorted) (db Demo.both_done)
      = Some (db Demo.after_reset) ∧
    rows (ledger Demo.after_reset) = [].
Proof.
  assert (H : reset Demo.project Demo.quiet Demo.both_done = (Ok (), Demo.after_reset))
    by (vm_compute; reflexivity).
  split; [exact H|].
  exact (reset_reverts_newest_first Demo.project Demo.quiet Demo.both_done _ H).
Defined.

Lemma refresh_matches_migrate_from_empty_witness :
  refresh Demo.project Demo.quiet Demo.both_done = (Ok (), Demo.after_refresh) ∧
  rows (ledger Demo.fresh) = [] ∧
  migrate Demo.project Demo.quiet false Demo.fresh = (Ok (), Demo.first_run) ∧
  refresh Demo.project Demo.quiet =
    (reset Demo.project Demo.quiet ≫= λ _, migrate Demo.project Demo.quiet false) ∧
  (∃ entries,
     dirs Demo.project !! discovery_directory Demo.project = Some entries ∧
     Ledger.pluck_migration (rows (ledger Demo.after_refresh)) =
       merge_sort String.le (candidate_files entries)) ∧
  Ledger.pluck_migration (rows (ledger Demo.after_refresh)) =
    Ledger.pluck_migration (rows (ledger Demo.first_run)) ∧
  Forall (λ r, batch r = 1) (rows (ledger Demo.after_refresh)).
Proof.
  assert (Hr : refresh Demo.project Demo.quiet Demo.both_done = (Ok (), Demo.after_refresh))
    by (vm_compute; reflexivity).
  assert (He : rows (ledger Demo.fresh) = []) by reflexivity.
  assert (Hm : migrate Demo.project Demo.quiet false Demo.fresh = (Ok (), Demo.first_run))
    by (vm_compute; reflexivity).
  split; [exact Hr|]. split; [exact He|]. split; [exact Hm|].
  exact (refresh_matches_migrate_from_empty
           Demo.project Demo.quiet Demo.both_done _ Demo.fresh _ Hr He Hm).
Defined.


(** * Further properties of the runner *)

(** ** Discovery *)

Lemma get_ran_migrations_run {DB} (e : env DB) (st : state DB) :
  get_ran_migrations e st =
  match dirs e !! discovery_directory e with
  | None => (Raise FileNotFoundError, st)
  | Some entries =>
      (Ok (filter (λ m, m ∈ Ledger.pluck_migration (rows (ledger st)))
                  (merge_sort String.le (candidate_files entries))), st)
  end.
Proof.
  unfold get_ran_migrations, listdir, discovery_directory.
  rewrite bind_run. by destruct (dirs e !! _).
Qed.

(** After a run of [migrate] that records what it applies, every discovered
    file is in the ledger. *)
Lemma discovered_recorded_after_migrate {DB} (e : env DB) self output
    (st st' : state DB) :
  migrate e self output st = (Ok (), st') →
  output && command_class self = false →
  ∃ entries, dirs e !! discovery_directory e = Some entries ∧
    ∀ m, m ∈ merge_sort String.le (candidate_files entries) →
         m ∈ Ledger.pluck_migration (rows (ledger st')).
Proof.
  intros Hm Hmode.
  apply migrate_ok in Hm as (entries & _ & Hd & _ & _ & Hl & _).
  rewrite Hmode in Hl. exists entries. split; [done|]. intros m Hin.
  rewrite Hl. simpl. unfold Ledger.pluck_migration. rewrite fmap_app, elem_of_app.
  destruct (decide (m ∈ migration <$> rows (ledger st))) as [|Hout]; [by left|].
  right. change (m ∈ Ledger.pluck_migration (new_records (next_id (ledger st))
    (Ledger.max_batch (rows (ledger st)) + 1) (pending_of entries (ledger st)))).
  rewrite pluck_new_records. apply list_elem_of_filter. done.
Qed.

(** ** Ascending keys *)

Lemma ids_ascending_create m b t : ids_ascending t → ids_ascending (Ledger.create m b t).
Proof.
  intros [Hs Hb]. split; simpl.
  - apply StronglySorted_app_2; [| done | by repeat constructor].
    intros r1 r2 Hr1 ->%list_elem_of_singleton. unfold id_lt. simpl.
    rewrite Forall_forall in Hb. by apply Hb.
  - apply Forall_app. split.
    + eapply Forall_impl; [exact Hb|]. simpl. intros; lia.
    + repeat constructor. simpl. lia.
Qed.

Lemma ids_ascending_filter (P : MigrationRecord → Prop) `{∀ r, Decision (P r)} t :
  ids_ascending t → ids_ascending {| rows := filter P (rows t); next_id := next_id t |}.
Proof.
  intros [Hs Hb]. split; simpl.
  - by apply StronglySorted_filter.
  - rewrite Forall_forall in Hb |- *. intros r [_ Hr]%list_elem_of_filter. by apply Hb.
Qed.

Lemma ascending_ids_inj (l : list MigrationRecord) x y :
  StronglySorted id_lt l → x ∈ l → y ∈ l → migration_id x = migration_id y → x = y.
Proof.
  induction 1 as [|z l Hl IH Hz]; intros Hx Hy Heq.
  - by apply elem_of_nil in Hx.
  - rewrite Forall_forall in Hz. unfold id_lt in Hz.
    apply elem_of_cons in Hx as [->|Hx]; apply elem_of_cons in Hy as [->|Hy]; auto.
    + specialize (Hz _ Hy). lia.
    + specialize (Hz _ Hx). lia.
Qed.

Lemma ascending_reverse_descending (l : list MigrationRecord) :
  StronglySorted id_lt l → StronglySorted Ledger.id_ge (reverse l).
Proof.
  induction 1 as [|z l Hl IH Hz]; [constructor|].
  rewrite reverse_cons. apply StronglySorted_app_2; [| done | by repeat constructor].
  intros r1 r2 Hr1 ->%list_elem_of_singleton. rewrite elem_of_reverse in Hr1.
  rewrite Forall_forall in Hz. specialize (Hz _ Hr1). unfold id_lt, Ledger.id_ge in *. lia.
Qed.

(** On ascending keys, [order_by("migration_id", "desc")] is the reversal. *)
Lemma order_by_desc_reverse (l : list MigrationRecord) :
  StronglySorted id_lt l → Ledger.order_by_migration_id_desc l = reverse l.
Proof.
  intros Hl. apply (StronglySorted_unique_strong Ledger.id_ge).
  - intros x1 x2 Hx1 Hx2 H12 H21. apply (ascending_ids_inj l); try done.
    + by rewrite order_by_desc_perm in Hx1.
    + by rewrite elem_of_reverse in Hx2.
    + unfold Ledger.id_ge in *. lia.
  - apply order_by_desc_sorted.
  - by apply ascending_reverse_descending.
  - rewrite order_by_desc_perm. by rewrite reverse_Permutation.
Qed.

Lemma new_records_ascending i b ms : StronglySorted id_lt (new_records i b ms).
Proof.
  revert i. induction ms as [|m ms IH]; intros i; simpl; constructor; [apply IH|].
  assert (H : ∀ j, i < j → Forall (id_lt {| migration_id := i; migration := m; batch := b |})
                            (new_records j b ms)).
  { clear IH. induction ms as [|m' ms IH]; intros j Hj; simpl; constructor.
    - unfold id_lt. simpl. lia.
    - apply IH. lia. }
  apply H. lia.
Qed.

(** ** Relations that every step of a run maintains *)

Global Instance keeps_preorder {DB} P : PreOrder (@keeps DB P).
Proof. split; unfold keeps; [by intros st | intros s1 s2 s3 H1 H2 H; auto]. Qed.

Global Instance same_ran_preorder {DB} : PreOrder (@same_ran DB).
Proof.
  split; unfold same_ran; [by intros st | intros s1 s2 s3 H1 H2; by rewrite H2].
Qed.

Global Instance same_db_preorder {DB} : PreOrder (@same_db DB).
Proof.
  split; unfold same_db; [by intros st | intros s1 s2 s3 H1 H2; by rewrite H2].
Qed.

Global Instance only_inserts_preorder {DB} : PreOrder (@only_inserts DB).
Proof.
  split; unfold only_inserts; [by intros st | intros s1 s2 s3 H1 H2; by etrans].
Qed.

Global Instance only_deletes_preorder {DB} : PreOrder (@only_deletes DB).
Proof.
  split; unfold only_deletes; [by intros st|].
  intros s1 s2 s3 [H1 E1] [H2 E2]. split; [by etrans | by rewrite E2].
Qed.

Ltac unfold_run :=
  unfold migrate, rollback, rollback_all, reset, get_last_batch_number,
    get_unran_migrations, get_rollback_migrations, get_all_migrations, listdir,
    migrate_one, rollback_one, rollback_all_one, reset_one, locate, pydoc_locate,
    instantiate, schema_dry_on, call_up, call_down, blueprint_to_sql, model_create,
    delete_migration, delete_migrations, report, line.

Ltac unfold_leaf :=
  intros ?;
  unfold emit, raise, modify_ledger, read_ledger, run_unit,
    append_last_migrations_ran, mret, M_ret;
  simpl; repeat case_match; simpl.

Section Frames.
Context {DB : Type} (e : env DB) (self : Migration).

Ltac ids_leaf :=
  unfold_leaf; unfold keeps; simpl;
  first [ done
        | apply ids_ascending_create
        | apply (ids_ascending_filter _) ].

Lemma run_operation_keeps_ids op :
  ∀ st, keeps ids_ascending st (run_operation e self op st).2.
Proof.
  destruct op; simpl; unfold refresh; unfold_run; repeat maintain_step; ids_leaf.
Qed.

Lemma run_session_keeps_ids ops :
  ∀ st, keeps ids_ascending st (run_session e self ops st).
Proof.
  induction ops as [|op ops IH]; intros st; simpl; [reflexivity|].
  etrans; [apply run_operation_keeps_ids | apply IH].
Qed.

Ltac ran_leaf := unfold_leaf; unfold same_ran; simpl; done.

Lemma reverting_keeps_ran output :
  (∀ st, same_ran st (rollback e self output st).2) ∧
  (∀ st, same_ran st (rollback_all e self st).2) ∧
  (∀ st, same_ran st (reset e self st).2).
Proof. split_and!; unfold_run; repeat maintain_step; ran_leaf. Qed.

Ltac inserts_leaf :=
  unfold_leaf; unfold only_inserts; simpl;
  first [ done | by apply prefix_app_r ].

Lemma migrate_only_inserts output : ∀ st, only_inserts st (migrate e self output st).2.
Proof. unfold_run; repeat maintain_step; inserts_leaf. Qed.

Ltac deletes_leaf :=
  unfold_leaf; unfold only_deletes; simpl;
  first [ done | split; [apply sublist_filter | done] ].

Lemma reverting_only_deletes output :
  (∀ st, only_deletes st (rollback e self output st).2) ∧
  (∀ st, only_deletes st (rollback_all e self st).2) ∧
  (∀ st, only_deletes st (reset e self st).2).
Proof. split_and!; unfold_run; repeat maintain_step; deletes_leaf. Qed.
End Frames.

(** ** The order of the calls of [down()] *)

Lemma downs_concat (f : string → list event) (l : list string) :
  (∀ m, downs (f m) = [m]) → downs (concat (f <$> l)) = l.
Proof.
  intros Hf. induction l as [|m l IH]; csimpl; [done|].
  unfold downs in *. by rewrite omap_app, Hf, IH.
Qed.

Lemma downs_rollback_all_events {DB} (e : env DB) self m : downs (rollback_all_events e self m) = [m].
Proof. reflexivity. Qed.

Lemma downs_reset_events {DB} (e : env DB) self m : downs (reset_events e self m) = [m].
Proof. unfold reset_events, report_events. by destruct (command_class self). Qed.

Lemma downs_rollback_events {DB} (e : env DB) self output m schema :
  downs (rollback_events e self output m schema) = [m].
Proof.
  unfold rollback_events, report_events. by destruct (command_class self), output.
Qed.

Lemma downs_concat_Forall2 (P : string → list event → Prop) l evss :
  (∀ m evs, P m evs → downs evs = [m]) → Forall2 P l evss → downs (concat evss) = l.
Proof.
  intros HP. induction 1 as [|m evs l evss Hm _ IH]; simpl; [done|].
  unfold downs in *. by rewrite omap_app, (HP _ _ Hm), IH.
Qed.

(** ** The batch a run of [migrate] has written *)

Lemma max_batch_after_insert (c : list MigrationRecord) i ms :
  ms ≠ [] →
  Ledger.max_batch (c ++ new_records i (Ledger.max_batch c + 1) ms) = Ledger.max_batch c + 1.
Proof.
  intros Hms. set (b := Ledger.max_batch c + 1).
  assert (Hne : c ++ new_records i b ms ≠ []).
  { destruct ms; [done|]. destruct c; simpl; discriminate. }
  destruct (max_batch_elem _ Hne) as (r & Hr & Hb).
  apply Z.le_antisymm.
  - rewrite <- Hb. apply elem_of_app in Hr as [Hr|Hr].
    + apply max_batch_ge in Hr. unfold b. lia.
    + pose proof (batch_new_records i b ms) as HF. rewrite Forall_forall in HF.
      rewrite (HF _ Hr). lia.
  - destruct ms as [|m ms]; [done|].
    apply (max_batch_ge _ {| migration_id := i; migration := m; batch := b |}).
    apply elem_of_app. right. simpl. by left.
Qed.

Lemma where_batch_after_insert (c : list MigrationRecord) i ms :
  let b := Ledger.max_batch c + 1 in
  Ledger.where_batch b (c ++ new_records i b ms) = new_records i b ms.
Proof.
  intros b. unfold Ledger.where_batch. rewrite filter_app.
  rewrite list_filter_none, list_filter_all; [done | |].
  - intros r Hr. pose proof (batch_new_records i b ms) as HF.
    rewrite Forall_forall in HF. by apply HF.
  - intros r Hr Hb. apply max_batch_ge in Hr. unfold b in Hb. lia.
Qed.

(** ** Preview runs and the database *)

Section Preview.
Context {DB : Type} (e : env DB) (self : Migration).
Hypothesis Hdry : units_honour_dry e.

Ltac db_units :=
  repeat match goal with
  | Hu : modules e !! _ = Some ?u |- context [up ?u ?c true ?d] =>
      let H := fresh in
      destruct (Hdry _ _ Hu c d) as [H _];
      destruct (up u c true d) as [[?|?] ?]; simpl in H; subst; simpl
  | Hu : modules e !! _ = Some ?u |- context [down ?u ?c true ?d] =>
      let H := fresh in
      destruct (Hdry _ _ Hu c d) as [_ H];
      destruct (down u c true d) as [[?|?] ?]; simpl in H; subst; simpl
  | |- context [_blueprint ?s] => destruct (_blueprint s); simpl
  end.

Lemma migrate_one_preview_db b m : ∀ st, same_db st (migrate_one e self b true m st).2.
Proof.
  intros st.
  unfold same_db, migrate_one, pydoc_locate, append_last_migrations_ran, report, line,
    instantiate, schema_dry_on, call_up, run_unit, blueprint_to_sql, model_create,
    emit, modify_ledger, raise, mbind, M_bind, mret, M_ret.
  destruct (locate_result e (unit_path e self m)) as [[u| |]|x] eqn:Hu;
    [apply locate_result_unit in Hu| | |];
    destruct (command_class self); simpl; db_units; done.
Qed.

Lemma rollback_one_preview_db m : ∀ st, same_db st (rollback_one e self true m st).2.
Proof.
  intros st.
  unfold same_db, rollback_one, locate, pydoc_locate, report, line,
    instantiate, schema_dry_on, call_down, run_unit, blueprint_to_sql, delete_migration,
    emit, modify_ledger, raise, mbind, M_bind, mret, M_ret.
  destruct (locate_result e (unit_path e self m)) as [[u| |]|x] eqn:Hu;
    [apply locate_result_unit in Hu| | |];
    destruct (command_class self); simpl; db_units; done.
Qed.

Lemma migrate_preview_db : ∀ st, same_db st (migrate e self true st).2.
Proof.
  unfold migrate, get_last_batch_number, get_unran_migrations, listdir.
  repeat maintain_step; try apply migrate_one_preview_db; unfold_leaf; done.
Qed.

Lemma rollback_preview_db : ∀ st, same_db st (rollback e self true st).2.
Proof.
  unfold rollback, get_rollback_migrations.
  repeat maintain_step; try apply rollback_one_preview_db; unfold_leaf; done.
Qed.
End Preview.

(** ** File names *)

Lemma append_nil (b : string) : ("" ++ b = b)%string.
Proof. reflexivity. Qed.

Lemma append_cons c (a b : string) : (String c a ++ b = String c (a ++ b))%string.
Proof. reflexivity. Qed.

Ltac sapp := rewrite ?append_cons, ?append_nil.

Lemma string_app_assoc (a b c : string) : ((a ++ b) ++ c = a ++ (b ++ c))%string.
Proof. induction a as [|x a IH]; sapp; [done | by rewrite IH]. Qed.

Lemma string_app_nil_r (a : string) : (a ++ "" = a)%string.
Proof. induction a as [|x a IH]; sapp; [done | by rewrite IH]. Qed.

Lemma join_cons_cons sep (w w' : string) l :
  PyStr.join sep (w :: w' :: l) = (w ++ sep ++ PyStr.join sep (w' :: l))%string.
Proof. reflexivity. Qed.

Lemma join_app_suffix sep (w : string) l sfx :
  (PyStr.join sep (w :: l) ++ sfx)%string =
  match l with
  | [] => (w ++ sfx)%string
  | w' :: l' => (w ++ sep ++ (PyStr.join sep (w' :: l') ++ sfx))%string
  end.
Proof.
  destruct l as [|w' l']; [done|].
  by rewrite join_cons_cons, !string_app_assoc.
Qed.

Lemma plain_char_spec c :
  plain_char c = true → c ≠ "_"%char ∧ c ≠ "."%char ∧ c ≠ PyStr.newline.
Proof.
  unfold plain_char. rewrite !andb_true_iff, !negb_true_iff.
  intros [[[_ H1] H2] H3]. split_and!; intros ->; by vm_compute in *.
Qed.

Lemma plain_char_ascii c : plain_char c = true → PyStr.is_ascii c = true.
Proof. unfold plain_char. rewrite !andb_true_iff. by intros [[[H _] _] _]. Qed.

Lemma plain_cons c r : plain (String c r) = true → plain_char c = true ∧ plain r = true.
Proof. simpl. by rewrite andb_true_iff. Qed.

Lemma split_plain_suffix w :
  plain w = true → PyStr.split "_" (w ++ ".py") = [(w ++ ".py")%string].
Proof.
  induction w as [|c w IH]; [by vm_compute|]. intros [Hc Hw]%plain_cons.
  apply plain_char_spec in Hc as (Hc & _ & _). sapp. simpl.
  rewrite (proj2 (Ascii.eqb_neq c "_") Hc). by rewrite IH.
Qed.

Lemma split_plain_app w s :
  plain w = true → PyStr.split "_" (w ++ String "_" s) = w :: PyStr.split "_" s.
Proof.
  induction w as [|c w IH]; [done|]. intros [Hc Hw]%plain_cons.
  apply plain_char_spec in Hc as (Hc & _ & _). sapp. simpl.
  rewrite (proj2 (Ascii.eqb_neq c "_") Hc). by rewrite IH.
Qed.

Lemma split_not_nil sep s : PyStr.split sep s ≠ [].
Proof.
  destruct s as [|c s]; simpl; [done|].
  destruct (Ascii.eqb c sep); [done|]. by destruct (PyStr.split sep s).
Qed.

(** Splitting a file name at its underscores, dropping leading fields and
    joining the rest again keeps the extension at the end. *)
Lemma join_drop_split w l (n : nat) :
  Forall (λ x, plain x = true) (w :: l) →
  (n < length (w :: l))%nat →
  PyStr.join "_" (drop n (PyStr.split "_" (PyStr.join "_" (w :: l) ++ ".py"))) =
  (PyStr.join "_" (drop n (w :: l)) ++ ".py")%string.
Proof.
  revert w n. induction l as [|w' l IH]; intros w n HF Hn.
  - apply Forall_cons in HF as [Hw _]. simpl in Hn.
    assert (n = 0%nat) as -> by lia.
    simpl. by rewrite split_plain_suffix.
  - apply Forall_cons in HF as [Hw HF].
    rewrite join_app_suffix. sapp. rewrite split_plain_app by done.
    destruct n as [|n].
    + rewrite !drop_0. specialize (IH w' 0%nat HF ltac:(simpl; lia)).
      rewrite !drop_0 in IH.
      destruct (PyStr.split "_" (PyStr.join "_" (w' :: l) ++ ".py")) as [|x xs] eqn:Hs.
      { by apply split_not_nil in Hs. }
      rewrite join_cons_cons, IH, join_cons_cons. sapp. rewrite !string_app_assoc. sapp. done.
    + simpl. apply IH; [done | simpl in *; lia].
Qed.

Lemma replace_from_step old new c r :
  PyStr.replace_from old new 0 (String c r) =
  if String.prefix old (String c r)
  then (new ++ PyStr.replace_from old new (Nat.pred (String.length old)) r)%string
  else String c (PyStr.replace_from old new 0 r).
Proof. reflexivity. Qed.

Lemma prefix_cons_ne a old c r : a ≠ c → String.prefix (String a old) (String c r) = false.
Proof.
  intros Hne.
  change (String.prefix (String a old) (String c r))
    with (if ascii_dec a c then String.prefix old r else false).
  by destruct (ascii_dec a c).
Qed.

Lemma prefix_single c r : String.prefix (String c "") (String c r) = true.
Proof.
  change (String.prefix (String c "") (String c r))
    with (if ascii_dec c c then String.prefix "" r else false).
  destruct (ascii_dec c c); [by destruct r | done].
Qed.

Lemma replace_from_plain w s :
  plain w = true →
  PyStr.replace_from ".py" "" 0 (w ++ s) = (w ++ PyStr.replace_from ".py" "" 0 s)%string.
Proof.
  induction w as [|c w IH]; [done|]. intros [Hc Hw]%plain_cons.
  apply plain_char_spec in Hc as (_ & Hc & _). sapp.
  rewrite replace_from_step, prefix_cons_ne by congruence. by rewrite IH.
Qed.

Lemma replace_py_joined l :
  Forall (λ x, plain x = true) l →
  PyStr.replace ".py" "" (PyStr.join "_" l ++ ".py") = PyStr.join "_" l.
Proof.
  unfold PyStr.replace. induction l as [|w l IH]; intros HF; [done|].
  apply Forall_cons in HF as [Hw HF]. rewrite join_app_suffix.
  destruct l as [|w' l].
  - rewrite replace_from_plain by done. simpl. apply string_app_nil_r.
  - rewrite replace_from_plain by done.
    change (PyStr.replace_from ".py" "" 0 ("_" ++ ?s)) with
      (String "_" (PyStr.replace_from ".py" "" 0 s)).
    by rewrite IH.
Qed.

Lemma camelize_rest_plain wide w s :
  plain w = true →
  PyStr.camelize_rest wide 0 (w ++ s) = (w ++ PyStr.camelize_rest wide 0 s)%string.
Proof.
  induction w as [|c w IH]; [done|]. intros [Hc Hw]%plain_cons.
  apply plain_char_spec in Hc as (Hc & _ & _). sapp. simpl.
  rewrite (proj2 (Ascii.eqb_neq c "_") Hc). by rewrite IH.
Qed.

Lemma camelize_rest_underscore wide d r :
  PyStr.camelize_rest wide 0 (String "_" (String d r)) =
  if Ascii.eqb d PyStr.newline
  then String "_" (PyStr.camelize_rest wide 0 (String d r))
  else if PyStr.is_ascii d then String (PyStr.upper d) (PyStr.camelize_rest wide 0 r)
  else (wide (String d (PyStr.continuation r)) ++
        PyStr.camelize_rest wide (String.length (PyStr.continuation r)) r)%string.
Proof. reflexivity. Qed.

Lemma concat_empty_cons (x : string) l :
  String.concat "" (x :: l) = (x ++ String.concat "" l)%string.
Proof. destruct l; simpl; [by rewrite string_app_nil_r | done]. Qed.

Lemma join_head sep c r l :
  PyStr.join sep (String c r :: l) = String c (PyStr.join sep (r :: l)).
Proof. by destruct l. Qed.

Lemma camelize_rest_joined wide w l :
  plain w = true →
  Forall (λ x, plain x = true ∧ x ≠ "") l →
  PyStr.camelize_rest wide 0 (PyStr.join "_" (w :: l)) =
  (w ++ String.concat "" (capitalize <$> l))%string.
Proof.
  revert w. induction l as [|w' l IH]; intros w Hw HF.
  - simpl. rewrite <- (string_app_nil_r w) at 1.
    by rewrite camelize_rest_plain.
  - apply Forall_cons in HF as [[Hw' Hne] HF].
    destruct w' as [|d r]; [done|].
    apply plain_cons in Hw' as [Hd Hr].
    pose proof (plain_char_ascii _ Hd) as Hascii.
    apply plain_char_spec in Hd as (_ & _ & Hd).
    rewrite join_cons_cons, camelize_rest_plain by done.
    rewrite join_head. rewrite fmap_cons, concat_empty_cons. f_equal.
    sapp. rewrite camelize_rest_underscore.
    rewrite (proj2 (Ascii.eqb_neq d PyStr.newline) Hd), Hascii.
    rewrite IH by done. done.
Qed.

Lemma camelize_joined wide l :
  Forall (λ x, plain x = true ∧ x ≠ "") l →
  PyStr.camelize wide (PyStr.join "_" l) = String.concat "" (capitalize <$> l).
Proof.
  destruct l as [|w l]; [done|]. intros [[Hw Hne] HF]%Forall_cons.
  destruct w as [|c r]; [done|].
  apply plain_cons in Hw as [Hc Hr].
  pose proof (plain_char_ascii _ Hc) as Hascii.
  apply plain_char_spec in Hc as (_ & _ & Hc).
  rewrite join_head. unfold PyStr.camelize.
  rewrite (proj2 (Ascii.eqb_neq c PyStr.newline) Hc), Hascii.
  rewrite camelize_rest_joined by done.
  by rewrite fmap_cons, concat_empty_cons.
Qed.

Lemma ups_migrate_events {DB} (e : env DB) self b output m schema :
  ups (migrate_events e self b output m schema) = [m].
Proof.
  unfold migrate_events, report_events. by destruct (command_class self), output.
Qed.

Lemma ups_concat_Forall2 (P : string → list event → Prop) l evss :
  (∀ m evs, P m evs → ups evs = [m]) → Forall2 P l evss → ups (concat evss) = l.
Proof.
  intros HP. induction 1 as [|m evs l evss Hm _ IH]; simpl; [done|].
  unfold ups in *. by rewrite omap_app, (HP _ _ Hm), IH.
Qed.

(** ** The further properties *)

Section Further.
Context {DB : Type}.
Implicit Types (e : env DB) (self : Migration) (st : state DB).

(** X1.  The files [get_unran_migrations] and [get_ran_migrations] return
    split the discovered files: every discovered file is in one of the two
    lists, a file that ran is not also pending and is in the ledger, both
    lists are in ascending order of the file names, and their lengths add up
    to the number of discovered files. *)
Theorem ran_and_unran_split_discovery e st entries :
  dirs e !! discovery_directory e = Some entries →
  ∃ unran ran,
    get_unran_migrations e st = (Ok unran, st) ∧
    get_ran_migrations e st = (Ok ran, st) ∧
    (∀ m, m ∈ candidate_files entries ↔ m ∈ unran ∨ m ∈ ran) ∧
    (∀ m, m ∈ ran → (m ∉ unran) ∧ m ∈ Ledger.pluck_migration (rows (ledger st))) ∧
    StronglySorted String.le unran ∧ StronglySorted String.le ran ∧
    (length unran + length ran = length (candidate_files entries))%nat.
Proof.
  intros Hd. rewrite get_unran_migrations_run, get_ran_migrations_run, Hd.
  eexists _, _. split; [reflexivity|]. split; [reflexivity|].
  set (names := Ledger.pluck_migration (rows (ledger st))).
  set (sorted := merge_sort String.le (candidate_files entries)).
  assert (Hs : StronglySorted String.le sorted)
    by (apply StronglySorted_merge_sort; apply _).
  split_and!.
  - intros m. rewrite pending_of_spec, list_elem_of_filter.
    unfold sorted. rewrite merge_sort_Permutation. fold names.
    destruct (decide (m ∈ names)); tauto.
  - intros m [Hin _]%list_elem_of_filter. split; [|done].
    rewrite pending_of_spec. fold names. tauto.
  - apply pending_of_sorted.
  - by apply StronglySorted_filter.
  - unfold pending_of, Ledger.all. fold names sorted.
    rewrite <- (merge_sort_Permutation String.le (candidate_files entries)). fold sorted.
    clearbody sorted. clear Hs. induction sorted as [|x l IH]; [done|].
    rewrite !filter_cons. destruct (decide (x ∈ names)), (decide (x ∉ names));
      simpl; try done; lia.
Qed.

(** X2.  After a completed [migrate] that records what it applies (any run
    but a preview rendered through a console command), [get_ran_migrations]
    returns every discovered file, and a further [migrate], in any mode,
    completes at once and leaves the whole state as it is. *)
Theorem migrate_twice_changes_nothing e self output output' st st' :
  migrate e self output st = (Ok (), st') →
  output && command_class self = false →
  (∃ entries, dirs e !! discovery_directory e = Some entries ∧
     get_ran_migrations e st' =
       (Ok (merge_sort String.le (candidate_files entries)), st')) ∧
  migrate e self output' st' = (Ok (), st').
Proof.
  intros Hm Hmode.
  destruct (discovered_recorded_after_migrate e self output st st' Hm Hmode)
    as (entries & Hd & Hall).
  split.
  - exists entries. split; [done|].
    rewrite get_ran_migrations_run, Hd. do 2 f_equal. by apply list_filter_all.
  - unfold migrate.
    rewrite bind_run, get_last_batch_number_run, bind_run, get_unran_migrations_run, Hd.
    unfold pending_of, Ledger.all. rewrite list_filter_none; [done|].
    intros m Hin Hnot. by apply Hnot, Hall.
Qed.

(** X3.  When the directory [databases/migrations] does not exist under
    the working directory, [get_unran_migrations], [get_ran_migrations] and
    [migrate] raise [FileNotFoundError] and change nothing, whatever the
    ledger holds.  [refresh] ends as its [reset] does when that raises;
    when its [reset] completes, it raises [FileNotFoundError] on a ledger
    that has been emptied. *)
Theorem missing_directory_stops_migrate e self output st :
  dirs e !! discovery_directory e = None →
  get_unran_migrations e st = (Raise FileNotFoundError, st) ∧
  get_ran_migrations e st = (Raise FileNotFoundError, st) ∧
  migrate e self output st = (Raise FileNotFoundError, st) ∧
  (∀ err st1, reset e self st = (Raise err, st1) →
     refresh e self st = (Raise err, st1)) ∧
  (∀ st1, reset e self st = (Ok (), st1) →
     refresh e self st = (Raise FileNotFoundError, st1) ∧
     rows (ledger st1) = []).
Proof.
  intros Hd. split_and!.
  - by rewrite get_unran_migrations_run, Hd.
  - by rewrite get_ran_migrations_run, Hd.
  - unfold migrate.
    by rewrite bind_run, get_last_batch_number_run, bind_run, get_unran_migrations_run, Hd.
  - intros err st1 Hreset. unfold refresh. by rewrite bind_run, Hreset.
  - intros st1 Hreset. split.
    + unfold refresh. rewrite bind_run, Hreset. unfold migrate.
      by rewrite bind_run, get_last_batch_number_run, bind_run,
        get_unran_migrations_run, Hd.
    + apply reset_ok in Hreset as (_ & Hl & _). by rewrite Hl.
Qed.

(** X4.  On an empty ledger, [rollback] completes and changes nothing;
    [rollback_all] completes, calls no unit and only issues its final
    [delete_migrations] with an empty list; [reset] completes, calls no unit
    and only sends its closing empty line when a console command is
    configured. *)
Theorem reverting_an_empty_ledger e self output st :
  rows (ledger st) = [] →
  rollback e self output st = (Ok (), st) ∧
  (rollback_all e self st).1 = Ok () ∧
  trace (rollback_all e self st).2 = trace st ++ [EvDeleteIn []] ∧
  ledger (rollback_all e self st).2 = ledger st ∧
  db (rollback_all e self st).2 = db st ∧
  (reset e self st).1 = Ok () ∧
  trace (reset e self st).2 = trace st ++ report_events self EmptyLine ∧
  ledger (reset e self st).2 = ledger st ∧
  db (reset e self st).2 = db st.
Proof.
  intros He.
  assert (Hroll : rollback e self output st = (Ok (), st)).
  { unfold rollback. rewrite bind_run, get_rollback_migrations_run.
    unfold rollback_names, Ledger.all. by rewrite He. }
  assert (Hall : rollback_all e self st =
                 (Ok (), {| db := db st; ledger := ledger st;
                            last_migrations_ran := last_migrations_ran st;
                            trace := trace st ++ [EvDeleteIn []] |})).
  { unfold rollback_all. rewrite bind_run, get_all_migrations_run, He. simpl.
    unfold delete_migrations, emit, modify_ledger, mbind, M_bind, mret, M_ret. simpl.
    unfold Ledger.delete_where_migration_in.
    destruct (ledger st) as [rs n]. simpl in *. by subst. }
  assert (Hreset : reset e self st =
                 (Ok (), {| db := db st; ledger := ledger st;
                            last_migrations_ran := last_migrations_ran st;
                            trace := trace st ++ report_events self EmptyLine |})).
  { unfold reset. rewrite bind_run, get_all_migrations_run.
    unfold reverse_names. rewrite He. simpl.
    unfold report, report_events, line, emit. rewrite bind_run. simpl.
    destruct (command_class self); simpl; [done|].
    rewrite app_nil_r. by destruct st. }
  rewrite Hall, Hreset. by split_and!.
Qed.

(** X5.  On a ledger whose keys ascend, a completed [rollback_all] calls
    [down()] in the order the rows were inserted, and a completed [reset]
    calls [down()] in exactly the reverse order; both leave the ledger
    empty. *)
Theorem rollback_all_and_reset_orders e self st st_a st_r :
  ids_ascending (ledger st) →
  rollback_all e self st = (Ok (), st_a) →
  reset e self st = (Ok (), st_r) →
  ∃ evs_a evs_r,
    trace st_a = trace st ++ evs_a ∧
    trace st_r = trace st ++ evs_r ∧
    downs evs_a = Ledger.pluck_migration (rows (ledger st)) ∧
    downs evs_r = reverse (Ledger.pluck_migration (rows (ledger st))) ∧
    rows (ledger st_a) = [] ∧ rows (ledger st_r) = [].
Proof.
  intros [Hasc _] Ha Hr.
  apply rollback_all_ok in Ha as (Hta & Hla & _).
  apply reset_ok in Hr as (Htr & Hlr & _).
  eexists _, _. split; [exact Hta|]. split; [exact Htr|].
  unfold downs. rewrite !omap_app. fold (downs (concat (rollback_all_events e self <$>
    Ledger.pluck_migration (rows (ledger st))))).
  fold (downs (concat (reset_events e self <$> reverse_names (ledger st)))).
  rewrite (downs_concat _ _ (downs_rollback_all_events e self)).
  rewrite (downs_concat _ _ (downs_reset_events e self)).
  split_and!.
  - simpl. by rewrite app_nil_r.
  - unfold report_events. destruct (command_class self); simpl; rewrite app_nil_r;
      unfold reverse_names, Ledger.pluck_migration;
      by rewrite order_by_desc_reverse, fmap_reverse.
  - by rewrite Hla.
  - by rewrite Hlr.
Qed.

(** X6.  When something is pending, a completed [migrate] that records
    what it applies, followed by a completed [rollback()], reverts the files
    in the reverse of the order in which they were applied and leaves the
    rows of the ledger as they were before the [migrate]; only the
    auto-increment counter has moved on. *)
Theorem migrate_then_rollback_restores_ledger e self output st st1 st2 pending :
  get_unran_migrations e st = (Ok pending, st) →
  pending ≠ [] →
  output && command_class self = false →
  migrate e self output st = (Ok (), st1) →
  rollback e self false st1 = (Ok (), st2) →
  rollback_names (ledger st1) = reverse pending ∧
  (∃ evs, trace st2 = trace st1 ++ evs ∧ downs evs = reverse pending) ∧
  rows (ledger st2) = rows (ledger st) ∧
  next_id (ledger st2) = next_id (ledger st) + Z.of_nat (length pending).
Proof.
  intros Hp Hne Hmode Hm Hr.
  rewrite get_unran_migrations_run in Hp.
  apply migrate_ok in Hm as (entries & _ & Hd & _ & _ & Hl & _).
  rewrite Hd in Hp. simplify_eq. rewrite Hmode in Hl.
  apply rollback_ok in Hr as (evss & HF & Ht & Hl2 & _). simpl in Hl2.
  set (pending := pending_of entries (ledger st)) in *.
  assert (Hnames : rollback_names (ledger st1) = reverse pending).
  { unfold rollback_names, Ledger.all. rewrite Hl. simpl.
    rewrite (max_batch_after_insert _ _ _ Hne).
    rewrite where_batch_after_insert.
    rewrite order_by_desc_reverse by apply new_records_ascending.
    unfold Ledger.pluck_migration. rewrite fmap_reverse.
    change (migration <$> new_records ?i ?b ?ms) with
      (Ledger.pluck_migration (new_records i b ms)).
    by rewrite pluck_new_records. }
  split_and!.
  - done.
  - exists (concat evss). split; [done|]. rewrite <- Hnames.
    eapply downs_concat_Forall2; [|exact HF].
    intros m evs (schema & ->). apply downs_rollback_events.
  - rewrite Hl2, Hnames, Hl. simpl. rewrite filter_app.
    rewrite list_filter_all, list_filter_none; [by rewrite app_nil_r | |].
    + intros r Hr Hnot. apply Hnot. rewrite elem_of_reverse.
      change (migration r ∈ pending).
      rewrite <- (pluck_new_records (next_id (ledger st))
                    (Ledger.max_batch (rows (ledger st)) + 1) pending).
      by apply list_elem_of_fmap_2.
    + intros r Hr. rewrite elem_of_reverse. intros Hin.
      apply pending_of_spec in Hin as [_ Hin]. apply Hin.
      by apply list_elem_of_fmap_2.
  - rewrite Hl2, Hl. done.
Qed.

(** X7.  [delete_last_batch] always completes and deletes exactly the rows
    of maximum batch, whatever the ledger holds, with no unit called: the
    database, the auto-increment counter and [last_migrations_ran] are left
    alone.  On a ledger whose names are unique, it leaves the ledger a
    completed [rollback()] leaves. *)
Theorem delete_last_batch_agrees_with_rollback st :
  (delete_last_batch st).1 = Ok () ∧
  rows (ledger (delete_last_batch st).2) =
    filter (λ r, batch r ≠ Ledger.max_batch (rows (ledger st))) (rows (ledger st)) ∧
  next_id (ledger (delete_last_batch st).2) = next_id (ledger st) ∧
  db (delete_last_batch st).2 = db st ∧
  last_migrations_ran (delete_last_batch st).2 = last_migrations_ran st ∧
  (∀ e self st',
     unique_names (ledger st) →
     rollback e self false st = (Ok (), st') →
     ledger (delete_last_batch st).2 = ledger st').
Proof.
  unfold delete_last_batch.
  rewrite bind_run, get_last_batch_number_run. unfold modify_ledger. simpl.
  split_and!; try done.
  intros e self st' Hu Hr.
  apply rollback_ok in Hr as (_ & _ & _ & Hl & _). simpl in Hl.
  rewrite Hl. unfold Ledger.delete_where_batch. f_equal.
  symmetry. by apply delete_latest_names.
Qed.

(** X8.  If every unit leaves the database alone when its schema is in dry
    mode, then [migrate(output=True)] and [rollback(output=True)] leave the
    database as it was, however they end. *)
Theorem preview_leaves_database_alone e self st :
  units_honour_dry e →
  db (migrate e self true st).2 = db st ∧
  db (rollback e self true st).2 = db st.
Proof.
  intros H. split; [by apply migrate_preview_db | by apply rollback_preview_db].
Qed.

(** X9.  When the [up()] of a pending file raises, [migrate] ends with that
    exception: the database is the one the failing [up()] left, the ledger is
    the one left by the files before it (their records stay), and the failing
    file is in [last_migrations_ran] without being recorded. *)
Theorem failing_up_keeps_earlier_records e self output st st1 done m rest u err d :
  get_unran_migrations e st = (Ok (done ++ m :: rest), st) →
  for_each done (migrate_one e self (Ledger.max_batch (rows (ledger st)) + 1) output) st
    = (Ok (), st1) →
  modules e !! unit_path e self m = Some u →
  up u (Some (connection self)) output (db st1) = (Raise err, d) →
  ∃ st2,
    migrate e self output st = (Raise err, st2) ∧
    db st2 = d ∧
    ledger st2 = ledger st1 ∧
    last_migrations_ran st2 = last_migrations_ran st ++ done ++ [m] ∧
    (output && command_class self = false →
     Ledger.pluck_migration (rows (ledger st2)) =
       Ledger.pluck_migration (rows (ledger st)) ++ done).
Proof.
  intros Hp Hdone Hu Hup.
  set (b := Ledger.max_batch (rows (ledger st)) + 1) in *.
  assert (Hm : ∃ st2, migrate_one e self b output m st1 = (Raise err, st2) ∧
                db st2 = d ∧ ledger st2 = ledger st1 ∧
                last_migrations_ran st2 = last_migrations_ran st1 ++ [m]).
  { unfold migrate_one, pydoc_locate, append_last_migrations_ran, report, line,
      instantiate, schema_dry_on, call_up, run_unit, emit, raise,
      mbind, M_bind, mret, M_ret.
    rewrite (proj2 (locate_result_unit _ _ _) Hu).
    destruct (command_class self), output; simpl; rewrite Hup; simpl;
      eexists; split_and!; reflexivity. }
  destruct Hm as (st2 & Hm & Hd & Hl & Hr). exists st2.
  pose proof Hdone as Hdone'.
  eapply (for_each_ok _ (λ _ _, True)
    (λ m t, if output && command_class self then t else Ledger.create m b t)
    (λ m, [m])) in Hdone' as (_ & _ & _ & Hl1 & Hr1).
  2:{ intros x s s' Hx. apply migrate_one_ok in Hx as (? & ? & _ & _ & _ & Ht & Hl' & Hr').
      eauto 10. }
  rewrite concat_singletons in Hr1.
  split_and!; try done.
  - unfold migrate. rewrite bind_run, get_last_batch_number_run, bind_run, Hp.
    by eapply for_each_abort.
  - by rewrite Hr, Hr1, <- app_assoc.
  - intros Hmode. rewrite Hl, Hl1, Hmode, foldl_create. simpl.
    unfold Ledger.pluck_migration. rewrite fmap_app. f_equal. apply pluck_new_records.
Qed.


(** X11.  In a directory that lists no name twice, a completed [migrate]
    keeps the names of the ledger unique, and so does a completed [rollback]
    after it. *)
Theorem completed_runs_keep_names_unique e self output st st1 st2 entries :
  dirs e !! discovery_directory e = Some entries →
  NoDup (d_name <$> entries) →
  unique_names (ledger st) →
  migrate e self output st = (Ok (), st1) →
  rollback e self output st1 = (Ok (), st2) →
  unique_names (ledger st1) ∧ unique_names (ledger st2).
Proof.
  intros Hd Hnd Hu Hm Hr.
  assert (Hu1 : unique_names (ledger st1))
    by (by eapply migrate_keeps_unique_names).
  split; [done|]. by eapply rollback_keeps_unique_names.
Qed.

(** X15.  Every operation of a runner, however it ends, keeps the keys
    [migration_id] of the ledger strictly ascending and below the
    auto-increment counter; so does any sequence of operations. *)
Theorem session_keeps_ids_ascending e self ops st :
  ids_ascending (ledger st) →
  ids_ascending (ledger (run_session e self ops st)).
Proof. apply run_session_keeps_ids. Qed.

(** X16.  [rollback], [rollback_all] and [reset] leave [last_migrations_ran]
    as it is, however they end. *)
Theorem reverting_leaves_last_migrations_ran e self output st :
  last_migrations_ran (rollback e self output st).2 = last_migrations_ran st ∧
  last_migrations_ran (rollback_all e self st).2 = last_migrations_ran st ∧
  last_migrations_ran (reset e self st).2 = last_migrations_ran st.
Proof.
  destruct (reverting_keeps_ran e self output) as (H1 & H2 & H3).
  split_and!; [apply H1 | apply H2 | apply H3].
Qed.

(** X17.  However [migrate] ends, the rows the ledger held before are still
    there, unchanged and at the front: [migrate] deletes and rewrites
    nothing. *)
Theorem migrate_only_appends_rows e self output st :
  rows (ledger st) `prefix_of` rows (ledger (migrate e self output st).2).
Proof. apply migrate_only_inserts. Qed.

(** X18.  However [rollback], [rollback_all] and [reset] end, the rows left
    in the ledger are rows it held before, in their order, and the
    auto-increment counter has not moved: these operations insert nothing. *)
Theorem reverting_only_removes_rows e self output st :
  (rows (ledger (rollback e self output st).2) `sublist_of` rows (ledger st) ∧
   next_id (ledger (rollback e self output st).2) = next_id (ledger st)) ∧
  (rows (ledger (rollback_all e self st).2) `sublist_of` rows (ledger st) ∧
   next_id (ledger (rollback_all e self st).2) = next_id (ledger st)) ∧
  (rows (ledger (reset e self st).2) `sublist_of` rows (ledger st) ∧
   next_id (ledger (reset e self st).2) = next_id (ledger st)).
Proof.
  destruct (reverting_only_deletes e self output) as (H1 & H2 & H3).
  split_and!; [apply H1 | apply H1 | apply H2 | apply H2 | apply H3 | apply H3].
Qed.

(** X19.  On a ledger whose keys ascend, [get_all_migrations(reverse=True)]
    returns the list of [get_all_migrations()] reversed. *)
Theorem reverse_listing_is_reversed st :
  ids_ascending (ledger st) →
  get_all_migrations false st = (Ok (Ledger.pluck_migration (rows (ledger st))), st) ∧
  get_all_migrations true st =
    (Ok (reverse (Ledger.pluck_migration (rows (ledger st)))), st).
Proof.
  intros [Hasc _]. rewrite !get_all_migrations_run. split; [done|].
  unfold reverse_names, Ledger.pluck_migration.
  by rewrite order_by_desc_reverse, fmap_reverse.
Qed.

(** X20.  A completed [migrate] calls [up()] once for each pending file, in
    the order of [get_unran_migrations], which is the ascending order of the
    file names. *)
Theorem migrate_applies_in_file_name_order e self output st st' :
  migrate e self output st = (Ok (), st') →
  ∃ pending evs,
    get_unran_migrations e st = (Ok pending, st) ∧
    trace st' = trace st ++ evs ∧
    ups evs = pending ∧
    StronglySorted String.le (ups evs).
Proof.
  intros H. apply migrate_ok in H as (entries & evss & Hd & HF & Ht & _).
  exists (pending_of entries (ledger st)), (concat evss).
  rewrite get_unran_migrations_run, Hd.
  assert (Hups : ups (concat evss) = pending_of entries (ledger st)).
  { eapply ups_concat_Forall2; [|exact HF].
    intros m evs (schema & _ & ->). apply ups_migrate_events. }
  split_and!; try done. rewrite Hups. apply pending_of_sorted.
Qed.
End Further.

(** X12.  For a file named by the convention, four ordering fields and then
    one or more words, joined by underscores and followed by [.py], where
    fields and words are made of ASCII characters other than underscore,
    dot and newline and the words are not empty, the path handed to
    [pydoc.locate] is the dotted directory, the file name without [.py],
    and the words with their first letters in upper case, run together. *)
Theorem unit_path_of_conventional_name {DB} (e : env DB) self tokens words :
  length tokens = 4%nat →
  words ≠ [] →
  Forall (λ w, plain w = true) (tokens ++ words) →
  Forall (λ w, w ≠ "") words →
  unit_path e self (PyStr.join "_" (tokens ++ words) ++ ".py") =
  (migration_directory self ++ "." ++ PyStr.join "_" (tokens ++ words) ++ "." ++
   String.concat "" (capitalize <$> words))%string.
Proof.
  intros Hlen Hne HF Hwords. unfold unit_path.
  rewrite (replace_py_joined _ HF).
  destruct tokens as [|t tokens]; [done|].
  rewrite <- app_comm_cons.
  rewrite join_drop_split; [| by rewrite app_comm_cons | simpl; rewrite length_app;
    destruct words; [done | simpl in *; lia]].
  rewrite app_comm_cons, <- Hlen, drop_app_length.
  apply Forall_app in HF as [_ HF].
  rewrite (replace_py_joined _ HF).
  rewrite camelize_joined; [done|].
  rewrite Forall_forall in HF, Hwords |- *. intros w Hw. split; auto.
Qed.

(** X13.  For a file name with fewer than five underscore-separated fields
    the derived class name is empty: the path handed to [pydoc.locate] ends
    with a dot. *)
Theorem unit_path_of_short_name {DB} (e : env DB) self file_name :
  (length (PyStr.split "_" file_name) ≤ 4)%nat →
  unit_path e self file_name =
  (migration_directory self ++ "." ++ PyStr.replace ".py" "" file_name ++ ".")%string.
Proof.
  intros H. unfold unit_path. by rewrite drop_ge.
Qed.

(** ** The further properties on the demo project *)

Lemma demo_units_honour_dry : units_honour_dry Demo.project.
Proof.
  intros path u H. unfold Demo.project in H. simpl in H.
  repeat (apply lookup_insert_Some in H as [[_ <-]|[_ H]]; [by split|]).
  apply lookup_singleton_Some in H as [_ <-]. by split.
Qed.

Lemma ran_and_unran_split_discovery_witness :
  dirs Demo.project !! discovery_directory Demo.project =
    Some [ Demo.file Demo.articles; Demo.file "__init__.py";
           {| d_name := "__pycache__"; d_isfile := false |}; Demo.file Demo.users ] ∧
  ∃ unran ran,
    get_unran_migrations Demo.project Demo.users_done = (Ok unran, Demo.users_done) ∧
    get_ran_migrations Demo.project Demo.users_done = (Ok ran, Demo.users_done) ∧
    (∀ m, m ∈ candidate_files
                [ Demo.file Demo.articles; Demo.file "__init__.py";
                  {| d_name := "__pycache__"; d_isfile := false |}; Demo.file Demo.users ]
          ↔ m ∈ unran ∨ m ∈ ran) ∧
    (∀ m, m ∈ ran →
          (m ∉ unran) ∧ m ∈ Ledger.pluck_migration (rows (ledger Demo.users_done))) ∧
    StronglySorted String.le unran ∧ StronglySorted String.le ran ∧
    (length unran + length ran =
     length (candidate_files
               [ Demo.file Demo.articles; Demo.file "__init__.py";
                 {| d_name := "__pycache__"; d_isfile := false |}; Demo.file Demo.users ]))%nat.
Proof.
  assert (Hd : dirs Demo.project !! discovery_directory Demo.project =
    Some [ Demo.file Demo.articles; Demo.file "__init__.py";
           {| d_name := "__pycache__"; d_isfile := false |}; Demo.file Demo.users ])
    by (vm_compute; reflexivity).
  split; [exact Hd|].
  exact (ran_and_unran_split_discovery Demo.project Demo.users_done _ Hd).
Defined.

Lemma migrate_twice_changes_nothing_witness :
  migrate Demo.project Demo.quiet false Demo.users_done = (Ok (), Demo.second_run) ∧
  false && command_class Demo.quiet = false ∧
  (∃ entries, dirs Demo.project !! discovery_directory Demo.project = Some entries ∧
     get_ran_migrations Demo.project Demo.second_run =
       (Ok (merge_sort String.le (candidate_files entries)), Demo.second_run)) ∧
  migrate Demo.project Demo.quiet true Demo.second_run = (Ok (), Demo.second_run).
Proof.
  assert (Hm : migrate Demo.project Demo.quiet false Demo.users_done
               = (Ok (), Demo.second_run)) by (vm_compute; reflexivity).
  split; [exact Hm|]. split; [reflexivity|].
  exact (migrate_twice_changes_nothing
           Demo.project Demo.quiet false true Demo.users_done _ Hm eq_refl).
Defined.

Lemma missing_directory_stops_migrate_witness :
  dirs DemoMore.bare_project !! discovery_directory DemoMore.bare_project = None ∧
  reset DemoMore.bare_project Demo.quiet Demo.users_done = (Ok (), DemoMore.bare_reset) ∧
  get_unran_migrations DemoMore.bare_project Demo.users_done
    = (Raise FileNotFoundError, Demo.users_done) ∧
  get_ran_migrations DemoMore.bare_project Demo.users_done
    = (Raise FileNotFoundError, Demo.users_done) ∧
  migrate DemoMore.bare_project Demo.quiet false Demo.users_done
    = (Raise FileNotFoundError, Demo.users_done) ∧
  refresh DemoMore.bare_project Demo.quiet Demo.users_done
    = (Raise FileNotFoundError, DemoMore.bare_reset) ∧
  rows (ledger DemoMore.bare_reset) = [].
Proof.
  assert (Hd : dirs DemoMore.bare_project !! discovery_directory DemoMore.bare_project
               = None) by (vm_compute; reflexivity).
  assert (Hr : reset DemoMore.bare_project Demo.quiet Demo.users_done
               = (Ok (), DemoMore.bare_reset)) by (vm_compute; reflexivity).
  split; [exact Hd|]. split; [exact Hr|].
  destruct (missing_directory_stops_migrate
              DemoMore.bare_project Demo.quiet false Demo.users_done Hd)
    as (H1 & H2 & H3 & _ & H4).
  split; [exact H1|]. split; [exact H2|]. split; [exact H3|].
  exact (H4 _ Hr).
Defined.

Lemma reverting_an_empty_ledger_witness :
  rows (ledger Demo.fresh) = [] ∧
  rollback Demo.project Demo.console false Demo.fresh = (Ok (), Demo.fresh) ∧
  (rollback_all Demo.project Demo.console Demo.fresh).1 = Ok () ∧
  trace (rollback_all Demo.project Demo.console Demo.fresh).2
    = trace Demo.fresh ++ [EvDeleteIn []] ∧
  ledger (rollback_all Demo.project Demo.console Demo.fresh).2 = ledger Demo.fresh ∧
  db (rollback_all Demo.project Demo.console Demo.fresh).2 = db Demo.fresh ∧
  (reset Demo.project Demo.console Demo.fresh).1 = Ok () ∧
  trace (reset Demo.project Demo.console Demo.fresh).2
    = trace Demo.fresh ++ report_events Demo.console EmptyLine ∧
  ledger (reset Demo.project Demo.console Demo.fresh).2 = ledger Demo.fresh ∧
  db (reset Demo.project Demo.console Demo.fresh).2 = db Demo.fresh.
Proof.
  assert (He : rows (ledger Demo.fresh) = []) by reflexivity.
  split; [exact He|].
  exact (reverting_an_empty_ledger Demo.project Demo.console false Demo.fresh He).
Defined.

Lemma rollback_all_and_reset_orders_witness :
  ids_ascending (ledger Demo.both_done) ∧
  rollback_all Demo.project Demo.quiet Demo.both_done = (Ok (), DemoMore.all_rolled_back) ∧
  reset Demo.project Demo.quiet Demo.both_done = (Ok (), Demo.after_reset) ∧
  ∃ evs_a evs_r,
    trace DemoMore.all_rolled_back = trace Demo.both_done ++ evs_a ∧
    trace Demo.after_reset = trace Demo.both_done ++ evs_r ∧
    downs evs_a = Ledger.pluck_migration (rows (ledger Demo.both_done)) ∧
    downs evs_r = reverse (Ledger.pluck_migration (rows (ledger Demo.both_done))) ∧
    rows (ledger DemoMore.all_rolled_back) = [] ∧ rows (ledger Demo.after_reset) = [].
Proof.
  assert (Hi : ids_ascending (ledger Demo.both_done)).
  { split; repeat constructor; unfold id_lt; simpl; lia. }
  assert (Ha : rollback_all Demo.project Demo.quiet Demo.both_done
               = (Ok (), DemoMore.all_rolled_back)) by (vm_compute; reflexivity).
  assert (Hr : reset Demo.project Demo.quiet Demo.both_done = (Ok (), Demo.after_reset))
    by (vm_compute; reflexivity).
  split; [exact Hi|]. split; [exact Ha|]. split; [exact Hr|].
  exact (rollback_all_and_reset_orders Demo.project Demo.quiet Demo.both_done _ _ Hi Ha Hr).
Defined.

Lemma migrate_then_rollback_restores_ledger_witness :
  get_unran_migrations Demo.project Demo.users_done = (Ok [Demo.articles], Demo.users_done) ∧
  [Demo.articles] ≠ [] ∧
  false && command_class Demo.quiet = false ∧
  migrate Demo.project Demo.quiet false Demo.users_done = (Ok (), Demo.second_run) ∧
  rollback Demo.project Demo.quiet false Demo.second_run
    = (Ok (), DemoMore.rolled_back_second) ∧
  rollback_names (ledger Demo.second_run) = reverse [Demo.articles] ∧
  (∃ evs, trace DemoMore.rolled_back_second = trace Demo.second_run ++ evs ∧
          downs evs = reverse [Demo.articles]) ∧
  rows (ledger DemoMore.rolled_back_second) = rows (ledger Demo.users_done) ∧
  next_id (ledger DemoMore.rolled_back_second) =
    next_id (ledger Demo.users_done) + Z.of_nat (length [Demo.articles]).
Proof.
  assert (Hp : get_unran_migrations Demo.project Demo.users_done
               = (Ok [Demo.articles], Demo.users_done)) by (vm_compute; reflexivity).
  assert (Hne : [Demo.articles] ≠ []) by discriminate.
  assert (Hm : migrate Demo.project Demo.quiet false Demo.users_done
               = (Ok (), Demo.second_run)) by (vm_compute; reflexivity).
  assert (Hr : rollback Demo.project Demo.quiet false Demo.second_run
               = (Ok (), DemoMore.rolled_back_second)) by (vm_compute; reflexivity).
  split; [exact Hp|]. split; [exact Hne|]. split; [reflexivity|].
  split; [exact Hm|]. split; [exact Hr|].
  exact (migrate_then_rollback_restores_ledger
           Demo.project Demo.quiet false Demo.users_done _ _ _ Hp Hne eq_refl Hm Hr).
Defined.

Lemma delete_last_batch_agrees_with_rollback_witness :
  unique_names (ledger Demo.both_done) ∧
  rollback Demo.project Demo.quiet false Demo.both_done = (Ok (), Demo.rolled_back_once) ∧
  (delete_last_batch Demo.both_done).1 = Ok () ∧
  rows (ledger (delete_last_batch Demo.both_done).2) =
    filter (λ r, batch r ≠ Ledger.max_batch (rows (ledger Demo.both_done)))
           (rows (ledger Demo.both_done)) ∧
  ledger (delete_last_batch Demo.both_done).2 = ledger Demo.rolled_back_once ∧
  db (delete_last_batch Demo.both_done).2 = db Demo.both_done.
Proof.
  assert (Hu : unique_names (ledger Demo.both_done)).
  { apply (bool_decide_unpack _). vm_compute. exact I. }
  assert (Hr : rollback Demo.project Demo.quiet false Demo.both_done
               = (Ok (), Demo.rolled_back_once)) by (vm_compute; reflexivity).
  split; [exact Hu|]. split; [exact Hr|].
  destruct (delete_last_batch_agrees_with_rollback Demo.both_done)
    as (H1 & H2 & _ & H3 & _ & H4).
  split; [exact H1|]. split; [exact H2|]. split; [|exact H3].
  exact (H4 Demo.project Demo.quiet _ Hu Hr).
Defined.

Lemma preview_leaves_database_alone_witness :
  units_honour_dry Demo.project ∧
  db (migrate Demo.project Demo.console true Demo.users_done).2 = db Demo.users_done ∧
  db (rollback Demo.project Demo.console true Demo.users_done).2 = db Demo.users_done.
Proof.
  split; [exact demo_units_honour_dry|].
  exact (preview_leaves_database_alone
           Demo.project Demo.console Demo.users_done demo_units_honour_dry).
Defined.

Lemma failing_up_keeps_earlier_records_witness :
  get_unran_migrations DemoMore.failing_project Demo.fresh
    = (Ok ([Demo.users] ++ Demo.articles :: []), Demo.fresh) ∧
  for_each [Demo.users]
    (migrate_one DemoMore.failing_project Demo.quiet
       (Ledger.max_batch (rows (ledger Demo.fresh)) + 1) false) Demo.fresh
    = (Ok (), DemoMore.users_applied) ∧
  modules DemoMore.failing_project !! unit_path DemoMore.failing_project Demo.quiet Demo.articles
    = Some DemoMore.failing_unit ∧
  up DemoMore.failing_unit (Some (connection Demo.quiet)) false (db DemoMore.users_applied)
    = (Raise (UnitError "QueryException"), ["CREATE TABLE users"; "CREATE TABLE half"]) ∧
  ∃ st2,
    migrate DemoMore.failing_project Demo.quiet false Demo.fresh
      = (Raise (UnitError "QueryException"), st2) ∧
    db st2 = ["CREATE TABLE users"; "CREATE TABLE half"] ∧
    ledger st2 = ledger DemoMore.users_applied ∧
    last_migrations_ran st2 =
      last_migrations_ran Demo.fresh ++ [Demo.users] ++ [Demo.articles] ∧
    (false && command_class Demo.quiet = false →
     Ledger.pluck_migration (rows (ledger st2)) =
       Ledger.pluck_migration (rows (ledger Demo.fresh)) ++ [Demo.users]).
Proof.
  assert (Hp : get_unran_migrations DemoMore.failing_project Demo.fresh
               = (Ok ([Demo.users] ++ Demo.articles :: []), Demo.fresh))
    by (vm_compute; reflexivity).
  assert (Hd : for_each [Demo.users]
                 (migrate_one DemoMore.failing_project Demo.quiet
                    (Ledger.max_batch (rows (ledger Demo.fresh)) + 1) false) Demo.fresh
               = (Ok (), DemoMore.users_applied)) by (vm_compute; reflexivity).
  assert (Hu : modules DemoMore.failing_project !! unit_path DemoMore.failing_project Demo.quiet Demo.articles
               = Some DemoMore.failing_unit) by (vm_compute; reflexivity).
  assert (Hup : up DemoMore.failing_unit (Some (connection Demo.quiet)) false
                  (db DemoMore.users_applied)
                = (Raise (UnitError "QueryException"),
                   ["CREATE TABLE users"; "CREATE TABLE half"]))
    by (vm_compute; reflexivity).
  split; [exact Hp|]. split; [exact Hd|]. split; [exact Hu|]. split; [exact Hup|].
  exact (failing_up_keeps_earlier_records
           DemoMore.failing_project Demo.quiet false Demo.fresh _ [Demo.users]
           Demo.articles [] _ _ _ Hp Hd Hu Hup).
Defined.


Lemma completed_runs_keep_names_unique_witness :
  dirs Demo.project !! discovery_directory Demo.project =
    Some [ Demo.file Demo.articles; Demo.file "__init__.py";
           {| d_name := "__pycache__"; d_isfile := false |}; Demo.file Demo.users ] ∧
  NoDup (d_name <$> [ Demo.file Demo.articles; Demo.file "__init__.py";
                      {| d_name := "__pycache__"; d_isfile := false |};
                      Demo.file Demo.users ]) ∧
  unique_names (ledger Demo.users_done) ∧
  migrate Demo.project Demo.quiet false Demo.users_done = (Ok (), Demo.second_run) ∧
  rollback Demo.project Demo.quiet false Demo.second_run
    = (Ok (), DemoMore.rolled_back_second) ∧
  unique_names (ledger Demo.second_run) ∧
  unique_names (ledger DemoMore.rolled_back_second).
Proof.
  assert (Hd : dirs Demo.project !! discovery_directory Demo.project =
    Some [ Demo.file Demo.articles; Demo.file "__init__.py";
           {| d_name := "__pycache__"; d_isfile := false |}; Demo.file Demo.users ])
    by (vm_compute; reflexivity).
  assert (Hn : NoDup (d_name <$> [ Demo.file Demo.articles; Demo.file "__init__.py";
                      {| d_name := "__pycache__"; d_isfile := false |};
                      Demo.file Demo.users ])).
  { apply (bool_decide_unpack _). vm_compute. exact I. }
  assert (Hu : unique_names (ledger Demo.users_done)).
  { apply (bool_decide_unpack _). vm_compute. exact I. }
  assert (Hm : migrate Demo.project Demo.quiet false Demo.users_done
               = (Ok (), Demo.second_run)) by (vm_compute; reflexivity).
  assert (Hr : rollback Demo.project Demo.quiet false Demo.second_run
               = (Ok (), DemoMore.rolled_back_second)) by (vm_compute; reflexivity).
  split; [exact Hd|]. split; [exact Hn|]. split; [exact Hu|].
  split; [exact Hm|]. split; [exact Hr|].
  exact (completed_runs_keep_names_unique
           Demo.project Demo.quiet false Demo.users_done _ _ _ Hd Hn Hu Hm Hr).
Defined.

Lemma session_keeps_ids_ascending_witness :
  ids_ascending (ledger Demo.users_done) ∧
  ids_ascending
    (ledger (run_session Demo.project Demo.quiet
               [OpMigrate false; OpRollback false; OpRefresh; OpRollbackAll]
               Demo.users_done)).
Proof.
  assert (Hi : ids_ascending (ledger Demo.users_done)).
  { split; repeat constructor; unfold id_lt; simpl; lia. }
  split; [exact Hi|].
  exact (session_keeps_ids_ascending Demo.project Demo.quiet
           [OpMigrate false; OpRollback false; OpRefresh; OpRollbackAll]
           Demo.users_done Hi).
Defined.

Lemma reverse_listing_is_reversed_witness :
  ids_ascending (ledger Demo.both_done) ∧
  get_all_migrations false Demo.both_done =
    (Ok (Ledger.pluck_migration (rows (ledger Demo.both_done))), Demo.both_done) ∧
  get_all_migrations true Demo.both_done =
    (Ok (reverse (Ledger.pluck_migration (rows (ledger Demo.both_done)))), Demo.both_done).
Proof.
  assert (Hi : ids_ascending (ledger Demo.both_done)).
  { split; repeat constructor; unfold id_lt; simpl; lia. }
  split; [exact Hi|].
  exact (reverse_listing_is_reversed Demo.both_done Hi).
Defined.

Lemma migrate_applies_in_file_name_order_witness :
  migrate Demo.project Demo.quiet false Demo.fresh = (Ok (), Demo.first_run) ∧
  ∃ pending evs,
    get_unran_migrations Demo.project Demo.fresh = (Ok pending, Demo.fresh) ∧
    trace Demo.first_run = trace Demo.fresh ++ evs ∧
    ups evs = pending ∧
    StronglySorted String.le (ups evs).
Proof.
  assert (Hm : migrate Demo.project Demo.quiet false Demo.fresh = (Ok (), Demo.first_run))
    by (vm_compute; reflexivity).
  split; [exact Hm|].
  exact (migrate_applies_in_file_name_order Demo.project Demo.quiet false Demo.fresh _ Hm).
Defined.

Lemma unit_path_of_conventional_name_witness :
  length ["2018"; "01"; "09"; "043202"] = 4%nat ∧
  ["create"; "users"; "table"] ≠ [] ∧
  Forall (λ w, plain w = true)
         (["2018"; "01"; "09"; "043202"] ++ ["create"; "users"; "table"]) ∧
  Forall (λ w, w ≠ "") ["create"; "users"; "table"] ∧
  unit_path Demo.project Demo.quiet
    (PyStr.join "_" (["2018"; "01"; "09"; "043202"] ++ ["create"; "users"; "table"])
     ++ ".py") =
  (migration_directory Demo.quiet ++ "." ++
   PyStr.join "_" (["2018"; "01"; "09"; "043202"] ++ ["create"; "users"; "table"]) ++
   "." ++ String.concat "" (capitalize <$> ["create"; "users"; "table"]))%string.
Proof.
  assert (H1 : length ["2018"; "01"; "09"; "043202"] = 4%nat) by reflexivity.
  assert (H2 : ["create"; "users"; "table"] ≠ []) by discriminate.
  assert (H3 : Forall (λ w, plain w = true)
                 (["2018"; "01"; "09"; "043202"] ++ ["create"; "users"; "table"]))
    by (repeat constructor).
  assert (H4 : Forall (λ w, w ≠ "") ["create"; "users"; "table"])
    by (repeat constructor; discriminate).
  split; [exact H1|]. split; [exact H2|]. split; [exact H3|]. split; [exact H4|].
  exact (unit_path_of_conventional_name Demo.project Demo.quiet _ _ H1 H2 H3 H4).
Defined.

Lemma unit_path_of_short_name_witness :
  (length (PyStr.split "_" "0001_create_users.py") ≤ 4)%nat ∧
  unit_path Demo.project Demo.quiet "0001_create_users.py" =
  (migration_directory Demo.quiet ++ "." ++
   PyStr.replace ".py" "" "0001_create_users.py" ++ ".")%string.
Proof.
  assert (H : (length (PyStr.split "_" "0001_create_users.py") ≤ 4)%nat)
    by (vm_compute; lia).
  split; [exact H|].
  exact (unit_path_of_short_name Demo.project Demo.quiet "0001_create_users.py" H).
Defined.
